(** * A shallow embedding of the Interpreter front end: Lexer, Parser and AST nodes.

    Sources embedded here:
    - [src/Lexer/lexer.js]            : class [Lexer]
    - [src/parser/Parser.js]          : class [Parser]
    - [src/parser/astNodes/*.js]      : [AstNode], [SymbolNode], [ConditionalNode]

    JavaScript values are modelled as follows.  A string is a [string] of
    8-bit characters (the emoji vocabulary of the alternative lexer is out of
    scope).  A "character" is what [String.prototype.charAt] returns: a
    string of length one, or the empty string when the index is out of range.
    A property that may hold [undefined] is an [option].  A thrown exception
    is the [Throw] outcome of the result type; a loop that the code bounds by
    nothing but its own progress is run on fuel and may end in [OutOfFuel].
    The [line] and [column] fields of an AST node, which the constructor of
    [AstNode] sets to -1 and nothing reads, are left out. *)

From Stdlib Require Import String Ascii List Bool Arith ZArith Lia.
Import ListNotations.

Local Open Scope string_scope.
Local Open Scope bool_scope.
Local Open Scope nat_scope.

Set Implicit Arguments.
Set Warnings "-register-all".

(* ================================================================== *)
(** ** Outcomes of a JavaScript call                                    *)
(* ================================================================== *)

Inductive Exn : Type :=
| Error (msg : string)          (* [throw new Error(msg)] *)
| TypeError (what : string).    (* a member is read from [undefined], or a
                                   missing method is called *)

Inductive Res (A : Type) : Type :=
| Ok (a : A)
| Throw (e : Exn)
| OutOfFuel.

Arguments Ok {A} a.
Arguments Throw {A} e.
Arguments OutOfFuel {A}.

(* ================================================================== *)
(** ** JavaScript strings                                               *)
(* ================================================================== *)

Module JsString.

(** The double quote character, code 34. *)
Definition dquote : ascii := "034"%char.

(** [s.charAt(n)]: the empty string when [n] is out of range. *)
Definition charAt (s : string) (n : nat) : string :=
  match String.get n s with
  | Some c => String c EmptyString
  | None => EmptyString
  end.

(** [s.substring(n)] *)
Definition substringFrom (n : nat) (s : string) : string :=
  String.substring n (String.length s - n) s.

(** [list.includes(x)] on a list of strings. *)
Definition includes (l : list string) (x : string) : bool :=
  existsb (String.eqb x) l.

(** [list.includes(x)] when [x] may be [undefined]. *)
Definition includes_opt (l : list string) (x : option string) : bool :=
  match x with
  | Some s => includes l s
  | None => false
  end.

(** [x === s] for [x] possibly [undefined] and [s] a string literal. *)
Definition seq (x : option string) (s : string) : bool :=
  match x with
  | Some y => String.eqb y s
  | None => false
  end.

Definition lower_ascii (c : ascii) : ascii :=
  let n := nat_of_ascii c in
  if (65 <=? n) && (n <=? 90) then ascii_of_nat (n + 32) else c.

(** [s.toLowerCase()], on the ASCII range. *)
Fixpoint toLowerCase (s : string) : string :=
  match s with
  | EmptyString => EmptyString
  | String c r => String (lower_ascii c) (toLowerCase r)
  end.

(** The text JavaScript interpolates for a value inside a template. *)
Definition show (x : option string) : string :=
  match x with
  | Some s => s
  | None => "undefined"
  end.

End JsString.
Import JsString.

(* ================================================================== *)
(** ** CharUtils                                                        *)
(* ================================================================== *)

Module CharUtils.

(** [src/Lexer/charUtils.js] is not among the sources.  Section 4.1 of the
    specification describes the classifier as pure predicates over single
    characters: digit, letter, letter or underscore, whitespace (newline
    excluded), newline, operator character (arithmetic, comparison and
    boolean-logic lead characters) and delimiter.  A string that is not a
    single character (the empty string [charAt] returns past the end)
    belongs to no class. *)

(** Modelled from the spec: a predicate over single characters; it is
    false of any other string. *)
Definition on_char (p : ascii -> bool) (ch : string) : bool :=
  match ch with
  | String c EmptyString => p c
  | _ => false
  end.

Definition between (lo hi : nat) (c : ascii) : bool :=
  (lo <=? nat_of_ascii c) && (nat_of_ascii c <=? hi).

(** Modelled from the spec: [CharUtils.isDigit], the digits 0 to 9. *)
Definition isDigit (ch : string) : bool := on_char (between 48 57) ch.

(** Modelled from the spec: [CharUtils.isDigit()] called with no argument,
    as the number recognizer does in its exponent states; [undefined] is not
    a digit. *)
Definition isDigit_noarg : bool := false.

(** Modelled from the spec: [CharUtils.isLetter], the letters a to z and
    A to Z. *)
Definition isLetter (ch : string) : bool :=
  on_char (fun c => between 65 90 c || between 97 122 c) ch.

(** Modelled from the spec: [CharUtils.isLetterOrUnderscore]. *)
Definition isLetterOrUnderscore (ch : string) : bool :=
  isLetter ch || String.eqb ch "_".

(** Modelled from the spec: [CharUtils.isWhitespace], the newline excluded:
    space, tab, carriage return, form feed and vertical tab. *)
Definition isWhitespace (ch : string) : bool :=
  on_char (fun c => let n := nat_of_ascii c in
                    (n =? 32) || (n =? 9) || (n =? 13) || (n =? 12) || (n =? 11)) ch.

(** Modelled from the spec: [CharUtils.isNewLine], the line feed. *)
Definition isNewLine (ch : string) : bool :=
  on_char (fun c => nat_of_ascii c =? 10) ch.

(** Modelled from the spec: [CharUtils.isComparisonOperator], the lead
    characters of [= == < <= > >=]. *)
Definition isComparisonOperator (ch : string) : bool :=
  includes ["="; "<"; ">"] ch.

(** Modelled from the spec: [CharUtils.isArithmeticOperator]. *)
Definition isArithmeticOperator (ch : string) : bool :=
  includes ["+"; "-"; "*"; "/"; "%"] ch.

(** Modelled from the spec: [CharUtils.isBooleanOperator], the lead
    characters of [! != && ||]. *)
Definition isBooleanOperator (ch : string) : bool :=
  includes ["!"; "&"; "|"] ch.

(** Modelled from the spec: [CharUtils.isOperator], the union of the three
    operator classes. *)
Definition isOperator (ch : string) : bool :=
  isArithmeticOperator ch || isComparisonOperator ch || isBooleanOperator ch.

(** Modelled from the spec: [CharUtils.isDelimiter], the single-character
    punctuation of section 4.3. *)
Definition isDelimiter (ch : string) : bool :=
  includes ["("; ")"; "{"; "}"; "["; "]"; ","; ";"; "@"] ch.

(** Modelled from the spec: [CharUtils.isValidPartOfNumber]; a number may
    start with a digit or with a dot, and the dot token is produced by the
    number-or-dot recognizer. *)
Definition isValidPartOfNumber (ch : string) : bool :=
  isDigit ch || String.eqb ch ".".

End CharUtils.

(* ================================================================== *)
(** ** Token and TokenType                                              *)
(* ================================================================== *)

Module TokenType.

(** [src/Lexer/tokentype.js] is not among the sources.  The token types are
    the strings the parser compares [currentToken.type] with: a literal kind
    by its name, an operator and a punctuation mark by its own text. *)

(** Modelled from the spec: [TokenType.Identifier]. *)
Definition Identifier := "identifier".

(** Modelled from the spec: [TokenType.Integer]. *)
Definition Integer := "integer".

(** Modelled from the spec: [TokenType.Decimal]. *)
Definition Decimal := "decimal".

(** Modelled from the spec: [TokenType.String]. *)
Definition String_ := "string".

(** Modelled from the spec: [TokenType.Plus]. *)
Definition Plus := "+".

(** Modelled from the spec: [TokenType.Minus]. *)
Definition Minus := "-".

(** Modelled from the spec: [TokenType.Times]. *)
Definition Times := "*".

(** Modelled from the spec: [TokenType.Div]. *)
Definition Div := "/".

(** Modelled from the spec: [TokenType.Modulo]. *)
Definition Modulo := "%".

(** Modelled from the spec: [TokenType.Assign]. *)
Definition Assign := "=".

(** Modelled from the spec: [TokenType.Equal]. *)
Definition Equal := "==".

(** Modelled from the spec: [TokenType.NotEqual]. *)
Definition NotEqual := "!=".

(** Modelled from the spec: [TokenType.Less]. *)
Definition Less := "<".

(** Modelled from the spec: [TokenType.LessOrEqual]. *)
Definition LessOrEqual := "<=".

(** Modelled from the spec: [TokenType.Greater]. *)
Definition Greater := ">".

(** Modelled from the spec: [TokenType.GreaterOrEqual]. *)
Definition GreaterOrEqual := ">=".

(** Modelled from the spec: [TokenType.And]. *)
Definition And := "&&".

(** Modelled from the spec: [TokenType.Or]. *)
Definition Or := "||".

(** Modelled from the spec: [TokenType.Not]. *)
Definition Not := "!".

(** Modelled from the spec: [TokenType.Dot]. *)
Definition Dot := ".".

(** Modelled from the spec: [TokenType.Newline]. *)
Definition Newline := String "010"%char EmptyString.

(** Modelled from the spec: [TokenType.EndOfInput]. *)
Definition EndOfInput := "EndOfInput".

End TokenType.

(** Modelled from the spec: [src/Lexer/token.js] is not among the sources.
    Section 3: a token is [{ type, value, line, column }], built by
    [new Token(type, value, line, column)]; an argument left out is
    [undefined]. *)
Record Token : Type := mkToken {
  type : option string;
  value : option string;
  tok_line : option nat;
  tok_column : option nat
}.

Definition newToken (ty val : string) (l c : nat) : Token :=
  mkToken (Some ty) (Some val) (Some l) (Some c).

(** What [nextToken] can hand back: a token, the [Error] object the boolean
    operator recognizer returns without throwing it, or [undefined] when a
    recognizer falls off its end. *)
Inductive TokenVal : Type :=
| Tok (t : Token)
| ErrorObject (msg : string)
| UndefinedToken.

(* ================================================================== *)
(** ** FSM                                                              *)
(* ================================================================== *)

Module FSM.

(** [src/Lexer/FSM.js] is not among the sources; the lexer sets the fields
    [initialState], [acceptingStates] and [nextState] of the machine and
    calls its [run]. *)

(** Modelled from the spec: the machine of section 3, with the fields the
    lexer assigns. *)
Record t : Type := mk {
  initialState : Z;
  acceptingStates : list Z;
  nextState : Z -> string -> Z
}.

Definition NoNextState : Z := (-1)%Z.

Definition accepting (fsm : t) (s : Z) : bool :=
  existsb (Z.eqb s) (acceptingStates fsm).

(** The outcome of a run: [isNumberRecognized], [number], [state]. *)
Definition outcome : Type := (bool * string * Z)%type.

(** Modelled from the spec: what a run reports when it stops. *)
Definition report (current : Z) (consumed : string)
           (best : option (string * Z)) : outcome :=
  match best with
  | Some (text, s) => (true, text, s)
  | None => (false, consumed, current)
  end.

(** Modelled from the spec: the loop of the runner; [best] is the last
    accepting state visited, with the text consumed up to it. *)
Fixpoint run_from (fsm : t) (rest : string) (current : Z) (consumed : string)
         (best : option (string * Z)) : outcome :=
  match rest with
  | EmptyString => report current consumed best
  | String c rest' =>
      let next := nextState fsm current (String c EmptyString) in
      if (next =? NoNextState)%Z then report current consumed best
      else
        let consumed' := consumed ++ String c EmptyString in
        let best' := if accepting fsm next then Some (consumed', next) else best in
        run_from fsm rest' next consumed' best'
  end.

(** Modelled from the spec: [src/Lexer/FSM.js] is not among the sources.
    Sections 3 and 4.2 of the specification: the runner starts at the
    initial state and consumes characters one at a time while a transition
    exists; on no transition it stops and reports the match ending at the
    most recent accepting state visited (greedy with back-off).  When no
    accepting state was visited nothing is recognized, and the text consumed
    and the state reached are reported, which is how a lone dot reaches the
    caller as a dot candidate. *)
Definition run (fsm : t) (input : string) : outcome :=
  run_from fsm input (initialState fsm) EmptyString
           (if accepting fsm (initialState fsm)
            then Some (EmptyString, initialState fsm) else None).

End FSM.

(* ================================================================== *)
(** ** Lexer                                                            *)
(* ================================================================== *)

Module Lexer.

Import CharUtils.

Record t : Type := mk {
  input : string;
  position : nat;
  line : nat;
  column : nat
}.

(** [new Lexer(input)] *)
Definition new (inp : string) : t := mk inp 0 0 0.

(** [this.position += n; this.column += n] *)
Definition advance (n : nat) (lx : t) : t :=
  mk (input lx) (position lx + n) (line lx) (column lx + n).

(** [position + 1 < input.length ? input.charAt(position + 1) : null] *)
Definition lookahead (lx : t) : option string :=
  if position lx + 1 <? String.length (input lx)
  then Some (charAt (input lx) (position lx + 1))
  else None.

Definition recognizeDelimiter (lx : t) : TokenVal * t :=
  let character := charAt (input lx) (position lx) in
  (Tok (newToken character character (line lx) (column lx)), advance 1 lx).

Definition recognizeComparisonOperator (lx : t) : TokenVal * t :=
  let character := charAt (input lx) (position lx) in
  let isLookaheadEqualSymbol :=
    match lookahead lx with
    | Some l => String.eqb l "="
    | None => false
    end in
  let lx1 := advance 1 lx in
  let lx2 := if isLookaheadEqualSymbol then advance 1 lx1 else lx1 in
  let tok ty v := Tok (newToken ty v (line lx) (column lx)) in
  if String.eqb character ">" then
    (if isLookaheadEqualSymbol
     then tok TokenType.GreaterOrEqual ">="
     else tok TokenType.Greater ">", lx2)
  else if String.eqb character "<" then
    (if isLookaheadEqualSymbol
     then tok TokenType.LessOrEqual "<="
     else tok TokenType.Less "<", lx2)
  else if String.eqb character "=" then
    (if isLookaheadEqualSymbol
     then tok TokenType.Equal "=="
     else tok TokenType.Assign "=", lx2)
  else (UndefinedToken, lx2).

(** The message is written in single quotes in the source, so nothing is
    interpolated into it. *)
Definition unrecognized : string :=
  "Unrecognized character ${character} at line ${this.line} and column ${this.column}.".

Definition recognizeBooleanOperator (lx : t) : TokenVal * t :=
  let character := charAt (input lx) (position lx) in
  let la := lookahead lx in
  let isLookaheadEqualSymbol :=
    match la with Some _ => true | None => false end in
  let lx1 := advance 1 lx in
  let lx2 := if isLookaheadEqualSymbol then advance 1 lx1 else lx1 in
  let tok ty v := Tok (newToken ty v (line lx) (column lx)) in
  if String.eqb character "!" then
    (if isLookaheadEqualSymbol && seq la "="
     then tok TokenType.NotEqual "!="
     else tok TokenType.Not "!", lx2)
  else if String.eqb character "&" then
    (if isLookaheadEqualSymbol && seq la "&"
     then tok TokenType.And "&&"
     else ErrorObject unrecognized, lx2)
  else if String.eqb character "|" then
    (if isLookaheadEqualSymbol
     then tok TokenType.Or "||"
     else ErrorObject unrecognized, lx2)
  else (UndefinedToken, lx2).

Definition recognizeArithmeticOperator (lx : t) : TokenVal * t :=
  let character := charAt (input lx) (position lx) in
  let lx1 := advance 1 lx in
  let tok ty v := Tok (newToken ty v (line lx) (column lx)) in
  if String.eqb character "+" then (tok TokenType.Plus "+", lx1)
  else if String.eqb character "-" then (tok TokenType.Minus "-", lx1)
  else if String.eqb character "*" then (tok TokenType.Times "*", lx1)
  else if String.eqb character "/" then (tok TokenType.Div "/", lx1)
  else if String.eqb character "%" then (tok TokenType.Modulo "%", lx1)
  else (UndefinedToken, lx1).

Definition recognizeOperator (lx : t) : TokenVal * t :=
  let character := charAt (input lx) (position lx) in
  if isComparisonOperator character then recognizeComparisonOperator lx
  else if isArithmeticOperator character then recognizeArithmeticOperator lx
  else if isBooleanOperator character then recognizeBooleanOperator lx
  else (UndefinedToken, lx).

Definition recognizeNewLine (lx : t) : TokenVal * t :=
  (Tok (newToken TokenType.Newline TokenType.Newline (line lx) (column lx)),
   mk (input lx) (position lx + 1) (line lx + 1) 0).

Definition recognizeDot (lx : t) : TokenVal * t :=
  (Tok (newToken TokenType.Dot "." (line lx) (column lx)), advance 1 lx).

Definition isIdentifierPart (character : string) : bool :=
  isLetter character || isDigit character || includes ["_"; "-"; "$"] character.

(** The [while (position < this.input.length)] loop of
    [recognizeIdentifier]; [remaining] is [input.length - position]. *)
Fixpoint identifier_loop (inp : string) (remaining pos : nat)
         (identifier : string) : string :=
  match remaining with
  | O => identifier
  | S remaining' =>
      let character := charAt inp pos in
      if negb (isIdentifierPart character) then identifier
      else identifier_loop inp remaining' (pos + 1) (identifier ++ character)
  end.

Definition keywords : list string :=
  [ "class"; "else"; "extends"; "false"; "final"; "func"; "for"; "if"; "in";
    "let"; "new"; "null"; "override"; "private"; "return"; "super"; "to";
    "this"; "true"; "var"; "while" ].

Definition recognizeIdentifier (lx : t) : TokenVal * t :=
  let identifier :=
    identifier_loop (input lx) (String.length (input lx) - position lx)
                    (position lx) EmptyString in
  let lx' := advance (String.length identifier) lx in
  if includes keywords identifier
  then (Tok (newToken identifier identifier (line lx) (column lx)), lx')
  else (Tok (newToken TokenType.Identifier identifier (line lx) (column lx)), lx').

Module State.
Definition Initial : Z := 1.
Definition Integer : Z := 2.
Definition BeginNumberWithFractionalPart : Z := 3.
Definition NumberWithFractionalPart : Z := 4.
Definition BeginNumberWithExponent : Z := 5.
Definition BeginNumberWithSignedExponent : Z := 6.
Definition NumberWithExponent : Z := 7.
Definition NoNextState : Z := (-1).
End State.

(** [fsm.nextState] of [buildNumberRecognizer].  In the two exponent
    states the source calls [CharUtils.isDigit()] without the character. *)
Definition nextState (currentState : Z) (character : string) : Z :=
  if (currentState =? State.Initial)%Z then
    if isDigit character then State.Integer
    else if String.eqb character "." then State.BeginNumberWithFractionalPart
    else State.NoNextState
  else if (currentState =? State.Integer)%Z then
    if isDigit character then State.Integer
    else if String.eqb character "." then State.BeginNumberWithFractionalPart
    else if String.eqb (toLowerCase character) "e" then State.BeginNumberWithExponent
    else State.NoNextState
  else if (currentState =? State.BeginNumberWithFractionalPart)%Z then
    if isDigit character then State.NumberWithFractionalPart
    else State.NoNextState
  else if (currentState =? State.NumberWithFractionalPart)%Z then
    if isDigit character then State.NumberWithFractionalPart
    else if String.eqb (toLowerCase character) "e" then State.BeginNumberWithExponent
    else State.NoNextState
  else if (currentState =? State.BeginNumberWithExponent)%Z then
    if String.eqb character "+" || String.eqb character "-"
    then State.BeginNumberWithSignedExponent
    else if isDigit_noarg then State.NumberWithExponent
    else State.NoNextState
  else if (currentState =? State.BeginNumberWithSignedExponent)%Z then
    if isDigit_noarg then State.NumberWithExponent
    else State.NoNextState
  else State.NoNextState.

Definition buildNumberRecognizer : FSM.t :=
  FSM.mk State.Initial
         [State.Integer; State.NumberWithFractionalPart; State.NumberWithExponent]
         nextState.

(** [let tokenType; if (state === 2) {...} else if (state === 4) {...}]:
    in any other state [tokenType] stays [undefined]. *)
Definition tokenTypeOf (state : Z) : option string :=
  if (state =? 2)%Z then Some TokenType.Integer
  else if (state =? 4)%Z then Some TokenType.Decimal
  else None.

Definition recognizeNumberOrDot (lx : t) : TokenVal * t :=
  let fsm := buildNumberRecognizer in
  let fsmInput := substringFrom (position lx) (input lx) in
  let '(isNumberRecognized, number, state) := FSM.run fsm fsmInput in
  if isNumberRecognized then
    let lx' := advance (String.length number) lx in
    (Tok (mkToken (tokenTypeOf state) (Some number) (Some (line lx)) (Some (column lx))),
     lx')
  else if String.eqb number "." && (state =? 3)%Z then recognizeDot lx
  else (UndefinedToken, lx).

(** The loop of [recognizeString]; [remaining] is
    [input.length - position]. *)
Fixpoint string_loop (inp : string) (remaining pos : nat) (str : string) : string :=
  match remaining with
  | O => str
  | S remaining' =>
      let character := charAt inp pos in
      if String.eqb character (String dquote EmptyString) then str ++ character
      else string_loop inp remaining' (pos + 1) (str ++ character)
  end.

Definition recognizeString (lx : t) : TokenVal * t :=
  let str :=
    string_loop (input lx) (String.length (input lx) - (position lx + 1))
                (position lx + 1) (String dquote EmptyString) in
  (Tok (newToken TokenType.String_ str (line lx) (column lx)),
   advance (String.length str) lx).

(** The loop of [skipWhitespaces]; [remaining] is
    [input.length - position]. *)
Fixpoint skip_loop (remaining : nat) (lx : t) : t :=
  match remaining with
  | O => lx
  | S remaining' =>
      if isWhitespace (charAt (input lx) (position lx))
      then skip_loop remaining' (advance 1 lx)
      else lx
  end.

Definition skipWhitespaces (lx : t) : t :=
  skip_loop (String.length (input lx) - position lx) lx.

Definition nextToken (lx : t) : Res (TokenVal * t) :=
  if String.length (input lx) <=? position lx then
    Ok (Tok (mkToken (Some TokenType.EndOfInput) None None None), lx)
  else
    let lx := skipWhitespaces lx in
    let character := charAt (input lx) (position lx) in
    if isNewLine character then Ok (recognizeNewLine lx)
    else if isLetterOrUnderscore character then Ok (recognizeIdentifier lx)
    else if isValidPartOfNumber character then Ok (recognizeNumberOrDot lx)
    else if isOperator character then Ok (recognizeOperator lx)
    else if isDelimiter character then Ok (recognizeDelimiter lx)
    else if String.eqb character (String dquote EmptyString) then Ok (recognizeString lx)
    else Throw (Error unrecognized).

(** [token.type] as [tokenize] reads it: a [TypeError] on [undefined],
    [undefined] on the [Error] object. *)
Definition typeOf (tv : TokenVal) : Res (option string) :=
  match tv with
  | Tok tk => Ok (type tk)
  | ErrorObject _ => Ok None
  | UndefinedToken => Throw (TypeError "type")
  end.

(** The loop of [tokenize].  Nothing in the loop itself bounds it, so it
    runs on fuel; [tokens] is kept in order. *)
Fixpoint tokenize_loop (fuel : nat) (token : TokenVal) (lx : t)
         (tokens : list TokenVal) : Res (list TokenVal) :=
  match fuel with
  | O => OutOfFuel
  | S fuel' =>
      match typeOf token with
      | Ok ty =>
          if seq ty TokenType.EndOfInput then Ok tokens
          else
            match nextToken lx with
            | Ok (token', lx') => tokenize_loop fuel' token' lx' (tokens ++ [token])
            | Throw e => Throw e
            | OutOfFuel => OutOfFuel
            end
      | Throw e => Throw e
      | OutOfFuel => OutOfFuel
      end
  end.

Definition tokenize (fuel : nat) (lx : t) : Res (list TokenVal) :=
  match nextToken lx with
  | Ok (token, lx') => tokenize_loop fuel token lx' []
  | Throw e => Throw e
  | OutOfFuel => OutOfFuel
  end.

End Lexer.

(* ================================================================== *)
(** ** AST nodes                                                        *)
(* ================================================================== *)

(** A node as the parser constructs it, and a JavaScript value standing
    where a node is expected: [parseParentheses] falls off its end and hands
    back [undefined], [parseConditional] stores [null] for a missing else
    branch.  A token's text is an [option string] because a token field may
    be [undefined]. *)
Inductive AstNode : Type :=
| ConstantNode (value type : option string)
| OperatorNode (name operator : option string) (left right : Value)
| ConditionalNode (condition trueExpr falseExpr : Value)
| WhileLoopNode (condition body : Value)
| AssignmentNode (symbol value : Value) (firstAssignment : bool)
| SymbolNode (name : option string)
| BlockNode (blocks : list AstNode)
| ParenthesisNode (content : Value)
| FunctionCallNode (identifier : AstNode) (args : list Value)
| FunctionAssignmentNode (name : option string) (args : list (option string))
                         (value : Value) (firstAssignment : bool)
| RelationalNode (conditionals : list (option string)) (params : list Value)
| ArrayNode (content : list Value)
| AccessorNode (object : AstNode) (index : Value)
| MapNode (keyValuePairs : list (Value * Value))
with Value : Type :=
| undefined
| null
| node (n : AstNode).

(** JavaScript truthiness of a value in a node position. *)
Definition truthy (v : Value) : bool :=
  match v with
  | node _ => true
  | _ => false
  end.

Module Predicates.

(** The capability queries.  The first ten are the methods of the base
    class [AstNode]; [isFunctionCallNode] and [isAccessorNode] are the two
    further ones the parser calls. *)
Inductive Predicate : Type :=
| isSymbolNode | isWhileLoopNode | isAssignmentNode | isBlockNode
| isConditionalNode | isConstantNode | isFunctionAssignmentNode
| isFunctionNode | isOperatorNode | isParenthesisNode
| isFunctionCallNode | isAccessorNode
| isRelationalNode | isArrayNode | isMapNode.

Definition Predicate_eqb (p r : Predicate) : bool :=
  match p, r with
  | isSymbolNode, isSymbolNode | isWhileLoopNode, isWhileLoopNode
  | isAssignmentNode, isAssignmentNode | isBlockNode, isBlockNode
  | isConditionalNode, isConditionalNode | isConstantNode, isConstantNode
  | isFunctionAssignmentNode, isFunctionAssignmentNode
  | isFunctionNode, isFunctionNode | isOperatorNode, isOperatorNode
  | isParenthesisNode, isParenthesisNode
  | isFunctionCallNode, isFunctionCallNode | isAccessorNode, isAccessorNode
  | isRelationalNode, isRelationalNode | isArrayNode, isArrayNode
  | isMapNode, isMapNode => true
  | _, _ => false
  end.

(** The methods of [class AstNode]: each of its ten predicates returns
    [false]; a query the class does not declare has no answer ([None]:
    calling it is a [TypeError]). *)
Definition AstNode_method (p : Predicate) : option bool :=
  match p with
  | isSymbolNode | isWhileLoopNode | isAssignmentNode | isBlockNode
  | isConditionalNode | isConstantNode | isFunctionAssignmentNode
  | isFunctionNode | isOperatorNode | isParenthesisNode => Some false
  | _ => None
  end.

(** The one predicate a node class overrides to [true].  [SymbolNode] and
    [ConditionalNode] are under [src/]; for the other classes:
    Modelled from the spec: their files are not among the sources; like the
    two that are, each extends [AstNode] and overrides the predicate of its
    own name. *)
Definition own (n : AstNode) : Predicate :=
  match n with
  | ConstantNode _ _ => isConstantNode
  | OperatorNode _ _ _ _ => isOperatorNode
  | ConditionalNode _ _ _ => isConditionalNode
  | WhileLoopNode _ _ => isWhileLoopNode
  | AssignmentNode _ _ _ => isAssignmentNode
  | SymbolNode _ => isSymbolNode
  | BlockNode _ => isBlockNode
  | ParenthesisNode _ => isParenthesisNode
  | FunctionCallNode _ _ => isFunctionCallNode
  | FunctionAssignmentNode _ _ _ _ => isFunctionAssignmentNode
  | RelationalNode _ _ => isRelationalNode
  | ArrayNode _ => isArrayNode
  | AccessorNode _ _ => isAccessorNode
  | MapNode _ => isMapNode
  end.

(** Method lookup on a node: the override of its class, else the
    inherited method of [AstNode]. *)
Definition answer (n : AstNode) (p : Predicate) : option bool :=
  if Predicate_eqb p (own n) then Some true else AstNode_method p.

Definition methodName (p : Predicate) : string :=
  match p with
  | isSymbolNode => "isSymbolNode" | isWhileLoopNode => "isWhileLoopNode"
  | isAssignmentNode => "isAssignmentNode" | isBlockNode => "isBlockNode"
  | isConditionalNode => "isConditionalNode" | isConstantNode => "isConstantNode"
  | isFunctionAssignmentNode => "isFunctionAssignmentNode"
  | isFunctionNode => "isFunctionNode" | isOperatorNode => "isOperatorNode"
  | isParenthesisNode => "isParenthesisNode"
  | isFunctionCallNode => "isFunctionCallNode" | isAccessorNode => "isAccessorNode"
  | isRelationalNode => "isRelationalNode" | isArrayNode => "isArrayNode"
  | isMapNode => "isMapNode"
  end.

(** [v.isX()] *)
Definition call (v : Value) (p : Predicate) : Res bool :=
  match v with
  | node n =>
      match answer n p with
      | Some b => Ok b
      | None => Throw (TypeError (methodName p))
      end
  | _ => Throw (TypeError (methodName p))
  end.

End Predicates.

(* ================================================================== *)
(** ** Parser                                                           *)
(* ================================================================== *)

Module Parser.

Import Predicates.

(** The parser's state: its lexer and the one buffered token. *)
Record t : Type := mk {
  lexer : Lexer.t;
  currentToken : TokenVal
}.

(** A method of the parser: it reads and updates the state, and returns,
    throws or runs out of fuel. *)
Definition M (A : Type) : Type := t -> Res (A * t).

Definition ret {A} (a : A) : M A := fun s => Ok (a, s).

Definition throw {A} (e : Exn) : M A := fun _ => Throw e.

Definition outOfFuel {A} : M A := fun _ => OutOfFuel.

Definition bind {A B} (m : M A) (k : A -> M B) : M B :=
  fun s =>
    match m s with
    | Ok (a, s') => k a s'
    | Throw e => Throw e
    | OutOfFuel => OutOfFuel
    end.

Notation "x <- m ;; k" := (bind m (fun x => k))
  (at level 61, m at next level, right associativity).
Notation "m ;;; k" := (bind m (fun _ => k))
  (at level 61, right associativity).

Definition lift {A} (r : Res A) : M A :=
  fun s =>
    match r with
    | Ok a => Ok (a, s)
    | Throw e => Throw e
    | OutOfFuel => OutOfFuel
    end.

(** [this.currentToken.type] *)
Definition tokType : M (option string) :=
  fun s =>
    match currentToken s with
    | Tok tk => Ok (type tk, s)
    | ErrorObject _ => Ok (None, s)
    | UndefinedToken => Throw (TypeError "type")
    end.

(** [this.currentToken.value] *)
Definition tokValue : M (option string) :=
  fun s =>
    match currentToken s with
    | Tok tk => Ok (value tk, s)
    | ErrorObject _ => Ok (None, s)
    | UndefinedToken => Throw (TypeError "value")
    end.

Definition next : M unit :=
  fun s =>
    match Lexer.nextToken (lexer s) with
    | Ok (tv, lx) => Ok (tt, mk lx tv)
    | Throw e => Throw e
    | OutOfFuel => OutOfFuel
    end.

(** [new Parser(input)] *)
Definition new (inp : string) : Res t :=
  match next (mk (Lexer.new inp) UndefinedToken) with
  | Ok (_, s) => Ok s
  | Throw e => Throw e
  | OutOfFuel => OutOfFuel
  end.

Definition isAdditiveOperator : M bool :=
  ty <- tokType ;; ret (seq ty "-" || seq ty "+").

Definition isMultiplyDivisionOrModuloOperator : M bool :=
  ty <- tokType ;; ret (seq ty "*" || seq ty "/" || seq ty "%").

Definition isNumber : M bool :=
  ty <- tokType ;; ret (seq ty "decimal" || seq ty "integer").

Definition isConstant : M bool :=
  ty <- tokType ;; ret (includes_opt ["null"; "true"; "false"] ty).

Definition expect (tokenType : string) : M unit :=
  ty <- tokType ;;
  if negb (seq ty tokenType) then
    v <- tokValue ;;
    throw (Error ("Expected '" ++ tokenType ++ "' but found '" ++ show v ++ "'."))
  else next.

Definition newline : string := String "010"%char EmptyString.

(** [value !== '' && value !== '\n' && value !== ';'] *)
Definition startsStatement (v : option string) : bool :=
  negb (seq v EmptyString) && negb (seq v newline) && negb (seq v ";").

(** [value === '\n' || value === ';'] *)
Definition isSeparator (v : option string) : bool :=
  seq v newline || seq v ";".

(** The end of [parseBlock]. *)
Definition blockResult (nd : Value) (blocks : list AstNode) : Value :=
  if 0 <? List.length blocks then node (BlockNode blocks) else nd.

(** [if (cond && node) blocks.push(node)] *)
Definition pushIf (cond : bool) (nd : Value) (blocks : list AstNode) : list AstNode :=
  match nd with
  | node n => if cond then blocks ++ [n] else blocks
  | _ => blocks
  end.

(** The keys [operators[key]] finds: the six own keys of the object
    literal, and the members every object inherits from
    [Object.prototype], which are truthy as well. *)
Definition operatorKeys : list string :=
  [ "=="; "!="; "<"; ">"; "<="; ">=";
    "constructor"; "hasOwnProperty"; "isPrototypeOf"; "propertyIsEnumerable";
    "toLocaleString"; "toString"; "valueOf"; "__proto__";
    "__defineGetter__"; "__defineSetter__"; "__lookupGetter__"; "__lookupSetter__" ].

(** The end of [parseRelational]. *)
Definition relationalResult (params : list Value)
           (conditionals : list (option string)) : M Value :=
  match params with
  | [p] => ret p
  | [p0; p1] =>
      match conditionals with
      | c :: _ => ret (node (OperatorNode c c p0 p1))
      | [] => throw (TypeError "name")
      end
  | _ => ret (node (RelationalNode conditionals params))
  end.

(** [node.name] of a SymbolNode, [node.identifier] and [node.args] of a
    FunctionCallNode, which is where [parseAssignment] reads them. *)
Definition nameOf (v : Value) : option string :=
  match v with
  | node (SymbolNode name) => name
  | _ => None
  end.

Definition identifierOf (v : Value) : Value :=
  match v with
  | node (FunctionCallNode identifier _) => node identifier
  | _ => undefined
  end.

Definition argsOf (v : Value) : list Value :=
  match v with
  | node (FunctionCallNode _ args) => args
  | _ => []
  end.

(** [node.args.forEach(...)] of [parseAssignment]: the names of the
    arguments and whether all of them are symbols; [arg.isSymbolNode()]
    throws on an [undefined] argument. *)
Fixpoint symbolArgs (args : list Value) : Res (bool * list (option string)) :=
  match args with
  | [] => Ok (true, [])
  | arg :: rest =>
      match call arg isSymbolNode with
      | Ok isSym =>
          match symbolArgs rest with
          | Ok (valid, names) =>
              if isSym then Ok (valid, nameOf arg :: names)
              else Ok (false, names)
          | Throw e => Throw e
          | OutOfFuel => OutOfFuel
          end
      | Throw e => Throw e
      | OutOfFuel => OutOfFuel
      end
  end.

(** [const {symbol, value} = ...; if (!symbol || !value) throw ...] of
    [parseMap].  Destructuring [undefined] is a [TypeError].
    Modelled from the spec: the node classes are not among the sources; the
    one node with a [symbol] field is the AssignmentNode (its target), whose
    [value] is the assigned expression. *)
Definition mapEntry (v : Value) : M (Value * Value) :=
  match v with
  | node (AssignmentNode sym val _) =>
      if truthy sym && truthy val then ret (sym, val)
      else throw (Error "Syntax error parsing map")
  | node _ => throw (Error "Syntax error parsing map")
  | _ => throw (TypeError "symbol")
  end.

Definition greetings : list string := ["hello"; "hi"; "hola"; "aloha"].

(** The methods of the grammar, as the object [this] offers them to one
    another.  The [_loop], [_params], [_content] and [_pairs] members are
    the [while] loops of the method they are named after. *)
Record Methods : Type := {
  parseBlock : M Value;
  parseBlock_loop : Value -> list AstNode -> M Value;
  parseRelational : M Value;
  parseRelational_loop : list Value -> list (option string) -> M Value;
  parseAssignment : M Value;
  parseWhileLoop : M Value;
  parseWhileLoop_loop : Value -> M Value;
  parseConditional : M Value;
  parseConditional_loop : Value -> M Value;
  parseMultiplyDivide : M Value;
  parseMultiplyDivide_loop : Value -> M Value;
  parseAddSubtract : M Value;
  parseAddSubtract_loop : Value -> M Value;
  parseNumber : M Value;
  parseParentheses : M Value;
  parseAccessors : AstNode -> M AstNode;
  parseAccessors_params : list Value -> M (list Value);
  parseString : M Value;
  parseArray : M Value;
  parseArray_content : list Value -> M (list Value);
  parseMap : M Value;
  parseMap_pairs : list (Value * Value) -> M (list (Value * Value));
  parseSymbolOrConstant : M Value
}.

(** The body of each method.  A call [this.m()] and the next turn of a
    loop go to [this], the methods with one unit of fuel less. *)
Section Bodies.

Variable this : Methods.

(** [parseBlock()] *)
Definition parseBlock_body : M Value :=
  v <- tokValue ;;
  nd <- (if startsStatement v then parseAssignment this else ret undefined) ;;
  parseBlock_loop this nd [].

(** the [while] loop of [parseBlock] *)
Definition parseBlock_loop_body (nd : Value) (blocks : list AstNode) : M Value :=
  v <- tokValue ;;
  if isSeparator v then
    let blocks := pushIf (List.length blocks =? 0) nd blocks in
    next ;;;
    ty <- tokType ;;
    if seq ty "EndOfInput" then ret (blockResult nd blocks)
    else
      v' <- tokValue ;;
      if startsStatement v' then
        nd' <- parseAssignment this ;;
        parseBlock_loop this nd' (pushIf true nd' blocks)
      else parseBlock_loop this nd blocks
  else ret (blockResult nd blocks).

(** [parseRelational()] *)
Definition parseRelational_body : M Value :=
  p <- parseAddSubtract this ;;
  parseRelational_loop this [p] [].

(** the [while] loop of [parseRelational] *)
Definition parseRelational_loop_body (params : list Value)
                        (conditionals : list (option string)) : M Value :=
  v <- tokValue ;;
  if includes_opt operatorKeys v then
    next ;;;
    p <- parseAddSubtract this ;;
    parseRelational_loop this (params ++ [p]) (conditionals ++ [v])
  else relationalResult params conditionals.

(** [parseAssignment()] *)
Definition parseAssignment_body : M Value :=
  nd <- parseWhileLoop this ;;
  v <- tokValue ;;
  firstAssignment <- (if includes_opt greetings v then next ;;; ret true
                      else ret false) ;;
  v <- tokValue ;;
  if seq v "=" then
    (* [if (node.isAccessorNode()) {...} throw ...], where the first two
       cases fall through to *)
    let accessorCase : M Value :=
      isAcc <- lift (call nd isAccessorNode) ;;
      if isAcc then
        next ;;;
        val <- parseAssignment this ;;
        ret (node (AssignmentNode nd val firstAssignment))
      else throw (Error "Invalid left hand side of assignment operator =") in
    isSym <- lift (call nd isSymbolNode) ;;
    if isSym then
      (* parse a variable assignment *)
      let name := nameOf nd in
      next ;;;
      val <- parseAssignment this ;;
      ret (node (AssignmentNode (node (SymbolNode name)) val firstAssignment))
    else
      isCall <- lift (call nd isFunctionCallNode) ;;
      idSym <- (if isCall then lift (call (identifierOf nd) isSymbolNode)
                else ret false) ;;
      if isCall && idSym then
        (* parse function assignment *)
        let name := nameOf (identifierOf nd) in
        a <- lift (symbolArgs (argsOf nd)) ;;
        let '(valid, args) := a in
        if valid then
          next ;;;
          expect "{" ;;;
          val <- parseBlock this ;;
          expect "}" ;;;
          ret (node (FunctionAssignmentNode name args val firstAssignment))
        else accessorCase
      else accessorCase
  else ret nd.

(** [parseWhileLoop()] *)
Definition parseWhileLoop_body : M Value :=
  nd <- parseConditional this ;;
  parseWhileLoop_loop this nd.

(** the [while] loop of [parseWhileLoop] *)
Definition parseWhileLoop_loop_body (nd : Value) : M Value :=
  ty <- tokType ;;
  if seq ty "while" then
    next ;;;
    expect "(" ;;;
    condition <- parseAssignment this ;;
    expect ")" ;;;
    expect "{" ;;;
    body <- parseBlock this ;;
    expect "}" ;;;
    parseWhileLoop_loop this (node (WhileLoopNode condition body))
  else ret nd.

(** [parseConditional()] *)
Definition parseConditional_body : M Value :=
  nd <- parseRelational this ;;
  parseConditional_loop this nd.

(** the [while] loop of [parseConditional] *)
Definition parseConditional_loop_body (nd : Value) : M Value :=
  ty <- tokType ;;
  if seq ty "if" then
    next ;;;
    expect "(" ;;;
    condition <- parseRelational this ;;
    expect ")" ;;;
    trueExpr <- parseRelational this ;;
    ty' <- tokType ;;
    falseExpr <- (if seq ty' "else" then next ;;; parseRelational this
                  else ret null) ;;
    parseConditional_loop this (node (ConditionalNode condition trueExpr falseExpr))
  else ret nd.

(** [parseMultiplyDivide()] *)
Definition parseMultiplyDivide_body : M Value :=
  nd <- parseSymbolOrConstant this ;;
  parseMultiplyDivide_loop this nd.

(** the [while] loop of [parseMultiplyDivide] *)
Definition parseMultiplyDivide_loop_body (nd : Value) : M Value :=
  b <- isMultiplyDivisionOrModuloOperator ;;
  if b then
    name <- tokValue ;;
    operator <- tokType ;;
    next ;;;
    right <- parseSymbolOrConstant this ;;
    parseMultiplyDivide_loop this (node (OperatorNode name operator nd right))
  else ret nd.

(** [parseAddSubtract()] *)
Definition parseAddSubtract_body : M Value :=
  nd <- parseMultiplyDivide this ;;
  parseAddSubtract_loop this nd.

(** the [while] loop of [parseAddSubtract] *)
Definition parseAddSubtract_loop_body (nd : Value) : M Value :=
  b <- isAdditiveOperator ;;
  if b then
    name <- tokValue ;;
    operator <- tokType ;;
    next ;;;
    right <- parseMultiplyDivide this ;;
    parseAddSubtract_loop this (node (OperatorNode name operator nd right))
  else ret nd.

(** [parseNumber()] *)
Definition parseNumber_body : M Value :=
  b <- isNumber ;;
  if b then
    v <- tokValue ;;
    ty <- tokType ;;
    next ;;;
    ret (node (ConstantNode v ty))
  else parseParentheses this.

(** [parseParentheses()] *)
Definition parseParentheses_body : M Value :=
  v <- tokValue ;;
  if seq v "(" then
    next ;;;
    nd <- parseAssignment this ;;
    v' <- tokValue ;;
    if negb (seq v' ")") then throw (Error "Parenthesis ) expected")
    else
      next ;;;
      nd' <- parseAccessors this (ParenthesisNode nd) ;;
      ret (node nd')
  else ret undefined          (* [// return this.parseEnd();] *).

(** [parseAccessors()] *)
Definition parseAccessors_body (nd : AstNode) : M AstNode :=
  v <- tokValue ;;
  if seq v "(" || seq v "@" || seq v "." then
    if seq v "(" then
      next ;;;
      v1 <- tokValue ;;
      params <- (if negb (seq v1 ")") then
                   p <- parseAssignment this ;;
                   parseAccessors_params this [p]
                 else ret []) ;;
      v2 <- tokValue ;;
      if negb (seq v2 ")") then throw (Error "Parenthesis ) expected")
      else
        next ;;;
        parseAccessors this (FunctionCallNode nd params)
    else if seq v "@" then
      next ;;;
      i <- parseSymbolOrConstant this ;;
      parseAccessors this (AccessorNode nd i)
    else
      (* dot notation: the branch is empty, nothing is consumed *)
      parseAccessors this nd
  else ret nd.

(** the [while] loop over the parameters of [parseAccessors] *)
Definition parseAccessors_params_body (params : list Value) : M (list Value) :=
  v <- tokValue ;;
  if seq v "," then
    next ;;;
    p <- parseAssignment this ;;
    parseAccessors_params this (params ++ [p])
  else ret params.

(** [parseString()] *)
Definition parseString_body : M Value :=
  ty <- tokType ;;
  if seq ty "string" then
    v <- tokValue ;;
    ty <- tokType ;;
    next ;;;
    ret (node (ConstantNode v ty))
  else parseArray this.

(** [parseArray()] *)
Definition parseArray_body : M Value :=
  ty <- tokType ;;
  if seq ty "[" then
    next ;;;
    v <- tokValue ;;
    content <- (if negb (seq v "]") then
                  p <- parseAssignment this ;;
                  parseArray_content this [p]
                else ret []) ;;
    expect "]" ;;;
    ret (node (ArrayNode content))
  else parseMap this.

(** the [while] loop over the elements of [parseArray] *)
Definition parseArray_content_body (content : list Value) : M (list Value) :=
  v <- tokValue ;;
  if seq v "," then
    next ;;;
    p <- parseAssignment this ;;
    parseArray_content this (content ++ [p])
  else ret content.

(** [parseMap()] *)
Definition parseMap_body : M Value :=
  ty <- tokType ;;
  if seq ty "{" then
    next ;;;
    v <- tokValue ;;
    keyValuePairs <- (if negb (seq v "}") then
                        a <- parseAssignment this ;;
                        kv <- mapEntry a ;;
                        parseMap_pairs this [kv]
                      else ret []) ;;
    expect "}" ;;;
    ret (node (MapNode keyValuePairs))
  else parseNumber this.

(** the [while] loop over the entries of [parseMap] *)
Definition parseMap_pairs_body (keyValuePairs : list (Value * Value)) : M (list (Value * Value)) :=
  v <- tokValue ;;
  if seq v "," then
    next ;;;
    a <- parseAssignment this ;;
    kv <- mapEntry a ;;
    parseMap_pairs this (keyValuePairs ++ [kv])
  else ret keyValuePairs.

(** [parseSymbolOrConstant()] *)
Definition parseSymbolOrConstant_body : M Value :=
  b <- isConstant ;;
  if b then
    v <- tokValue ;;
    ty <- tokType ;;
    next ;;;
    ret (node (ConstantNode v ty))
  else
    ty <- tokType ;;
    if seq ty "identifier" then
      v <- tokValue ;;
      next ;;;
      nd <- parseAccessors this (SymbolNode v) ;;
      ret (node nd)
    else parseString this.

Definition step : Methods := {|
  parseBlock := parseBlock_body;
  parseBlock_loop := parseBlock_loop_body;
  parseRelational := parseRelational_body;
  parseRelational_loop := parseRelational_loop_body;
  parseAssignment := parseAssignment_body;
  parseWhileLoop := parseWhileLoop_body;
  parseWhileLoop_loop := parseWhileLoop_loop_body;
  parseConditional := parseConditional_body;
  parseConditional_loop := parseConditional_loop_body;
  parseMultiplyDivide := parseMultiplyDivide_body;
  parseMultiplyDivide_loop := parseMultiplyDivide_loop_body;
  parseAddSubtract := parseAddSubtract_body;
  parseAddSubtract_loop := parseAddSubtract_loop_body;
  parseNumber := parseNumber_body;
  parseParentheses := parseParentheses_body;
  parseAccessors := parseAccessors_body;
  parseAccessors_params := parseAccessors_params_body;
  parseString := parseString_body;
  parseArray := parseArray_body;
  parseArray_content := parseArray_content_body;
  parseMap := parseMap_body;
  parseMap_pairs := parseMap_pairs_body;
  parseSymbolOrConstant := parseSymbolOrConstant_body
|}.

End Bodies.

(** With no fuel left every method stops. *)
Definition noFuel : Methods := {|
  parseBlock := outOfFuel;
  parseBlock_loop := fun _ _ => outOfFuel;
  parseRelational := outOfFuel;
  parseRelational_loop := fun _ _ => outOfFuel;
  parseAssignment := outOfFuel;
  parseWhileLoop := outOfFuel;
  parseWhileLoop_loop := fun _ => outOfFuel;
  parseConditional := outOfFuel;
  parseConditional_loop := fun _ => outOfFuel;
  parseMultiplyDivide := outOfFuel;
  parseMultiplyDivide_loop := fun _ => outOfFuel;
  parseAddSubtract := outOfFuel;
  parseAddSubtract_loop := fun _ => outOfFuel;
  parseNumber := outOfFuel;
  parseParentheses := outOfFuel;
  parseAccessors := fun _ => outOfFuel;
  parseAccessors_params := fun _ => outOfFuel;
  parseString := outOfFuel;
  parseArray := outOfFuel;
  parseArray_content := fun _ => outOfFuel;
  parseMap := outOfFuel;
  parseMap_pairs := fun _ => outOfFuel;
  parseSymbolOrConstant := outOfFuel
|}.

(** The methods on [fuel] units of fuel: every call and every loop
    iteration spends one. *)
Fixpoint methods (fuel : nat) : Methods :=
  match fuel with
  | O => noFuel
  | S f => step (methods f)
  end.

(** [parse()] *)
Definition parse (fuel : nat) : M Value := parseBlock (methods fuel).

(** [new Parser(input).parse()], the state dropped. *)
Definition parseInput (fuel : nat) (inp : string) : Res Value :=
  match new inp with
  | Ok s =>
      match parse fuel s with
      | Ok (v, _) => Ok v
      | Throw e => Throw e
      | OutOfFuel => OutOfFuel
      end
  | Throw e => Throw e
  | OutOfFuel => OutOfFuel
  end.

End Parser.

(* ================================================================== *)
(** ** Vocabulary of the properties                                     *)
(* ================================================================== *)

Module Digits.

Import CharUtils.

Fixpoint all_digits (s : string) : bool :=
  match s with
  | EmptyString => true
  | String c r => isDigit (String c EmptyString) && all_digits r
  end.

(** [d+]: one digit or more, and digits only. *)
Definition is_digits (s : string) : bool :=
  match s with
  | EmptyString => false
  | String _ _ => all_digits s
  end.

(** The first character of [s] is a digit. *)
Definition startsWithDigit (s : string) : bool := isDigit (charAt s 0).

End Digits.

Module FuelOrder.

Import Parser.

(** [r] is [OutOfFuel], or it is [r'] already. *)
Definition le_res {A} (r r' : Res A) : Prop := r = OutOfFuel \/ r = r'.

Definition le_M {A} (m m' : M A) : Prop := forall s, le_res (m s) (m' s).

(** The order on the methods, member by member. *)
Record le_methods (a b : Methods) : Prop := {
  le_parseBlock : le_M (parseBlock a) (parseBlock b);
  le_parseBlock_loop : forall n l, le_M (parseBlock_loop a n l) (parseBlock_loop b n l);
  le_parseRelational : le_M (parseRelational a) (parseRelational b);
  le_parseRelational_loop :
    forall p c, le_M (parseRelational_loop a p c) (parseRelational_loop b p c);
  le_parseAssignment : le_M (parseAssignment a) (parseAssignment b);
  le_parseWhileLoop : le_M (parseWhileLoop a) (parseWhileLoop b);
  le_parseWhileLoop_loop : forall n, le_M (parseWhileLoop_loop a n) (parseWhileLoop_loop b n);
  le_parseConditional : le_M (parseConditional a) (parseConditional b);
  le_parseConditional_loop :
    forall n, le_M (parseConditional_loop a n) (parseConditional_loop b n);
  le_parseMultiplyDivide : le_M (parseMultiplyDivide a) (parseMultiplyDivide b);
  le_parseMultiplyDivide_loop :
    forall n, le_M (parseMultiplyDivide_loop a n) (parseMultiplyDivide_loop b n);
  le_parseAddSubtract : le_M (parseAddSubtract a) (parseAddSubtract b);
  le_parseAddSubtract_loop :
    forall n, le_M (parseAddSubtract_loop a n) (parseAddSubtract_loop b n);
  le_parseNumber : le_M (parseNumber a) (parseNumber b);
  le_parseParentheses : le_M (parseParentheses a) (parseParentheses b);
  le_parseAccessors : forall n, le_M (parseAccessors a n) (parseAccessors b n);
  le_parseAccessors_params :
    forall l, le_M (parseAccessors_params a l) (parseAccessors_params b l);
  le_parseString : le_M (parseString a) (parseString b);
  le_parseArray : le_M (parseArray a) (parseArray b);
  le_parseArray_content :
    forall l, le_M (parseArray_content a l) (parseArray_content b l);
  le_parseMap : le_M (parseMap a) (parseMap b);
  le_parseMap_pairs : forall l, le_M (parseMap_pairs a l) (parseMap_pairs b l);
  le_parseSymbolOrConstant : le_M (parseSymbolOrConstant a) (parseSymbolOrConstant b)
}.

End FuelOrder.

Module Lexemes.

Import Lexer CharUtils.

(** [lx'] is [lx] moved past the text [v], which the input holds at the cursor of [lx]. *)
Definition lexeme_of (lx lx' : Lexer.t) (v : string) : Prop :=
  input lx' = input lx
  /\ position lx' = position lx + String.length v
  /\ substringFrom (position lx) (input lx) =
     v ++ substringFrom (position lx') (input lx).

(** Every character of [s] is in the class [p]. *)
Fixpoint all_chars (p : string -> bool) (s : string) : bool :=
  match s with
  | EmptyString => true
  | String c r => p (String c EmptyString) && all_chars p r
  end.

(** The double quote as a character. *)
Definition quote : string := String dquote EmptyString.

(** A character other than the double quote. *)
Definition notQuote (ch : string) : bool := negb (String.eqb ch quote).

(** What [nextToken] does once the end-of-input test has failed. *)
Definition dispatch (lx : Lexer.t) : Res (TokenVal * Lexer.t) :=
  let character := charAt (input lx) (position lx) in
  if isNewLine character then Ok (recognizeNewLine lx)
  else if isLetterOrUnderscore character then Ok (recognizeIdentifier lx)
  else if isValidPartOfNumber character then Ok (recognizeNumberOrDot lx)
  else if isOperator character then Ok (recognizeOperator lx)
  else if isDelimiter character then Ok (recognizeDelimiter lx)
  else if String.eqb character (String dquote EmptyString) then Ok (recognizeString lx)
  else Throw (Error unrecognized).

(** The result [r] of a recognizer started at [lx] is a token whose value
    is the non-empty text the input holds at the cursor of [lx], and the
    cursor has moved past exactly that text. *)
Definition lexes (r : TokenVal * Lexer.t) (lx : Lexer.t) : Prop :=
  exists tk v, fst r = Tok tk /\ value tk = Some v /\ v <> EmptyString
               /\ lexeme_of lx (snd r) v.

(** The token [nextToken] returns at the end of the input. *)
Definition endToken : TokenVal := Tok (mkToken (Some TokenType.EndOfInput) None None None).

(** The value of a token. *)
Definition valueOf (tv : TokenVal) : option string :=
  match tv with
  | Tok tk => value tk
  | _ => None
  end.

(** A token that is not EndOfInput. *)
Definition notEnd (tv : TokenVal) : Prop :=
  match tv with
  | Tok tk => type tk <> Some TokenType.EndOfInput
  | _ => True
  end.

End Lexemes.

Module ParserRest.
Import Parser.

(** [discardNewlines()]: [while (type === '\n') next()]; every turn of the
    loop spends one unit of fuel. *)
Fixpoint discardNewlines (fuel : nat) : M unit :=
  match fuel with
  | O => outOfFuel
  | S f =>
      bind tokType (fun ty =>
        if seq ty newline then bind next (fun _ => discardNewlines f)
        else ret tt)
  end.

(** [parseEnd()]: it always throws; no method calls it. *)
Definition parseEnd : M Value :=
  bind tokValue (fun v =>
    if seq v EmptyString then throw (Error "Unexpected end of expression")
    else throw (Error "Value expected")).

End ParserRest.

(** The ten predicates the base class [AstNode] declares. *)
Definition declared_by_AstNode : list Predicates.Predicate :=
  [ Predicates.isSymbolNode; Predicates.isWhileLoopNode; Predicates.isAssignmentNode;
    Predicates.isBlockNode; Predicates.isConditionalNode; Predicates.isConstantNode;
    Predicates.isFunctionAssignmentNode; Predicates.isFunctionNode;
    Predicates.isOperatorNode; Predicates.isParenthesisNode ].

(** The input node.add(42).push("Hello") *)
Definition chained_calls : string :=
  "node.add(42).push(" ++ String dquote ("Hello" ++ String dquote ")").

(* ================================================================== *)
(** * Properties                                                        *)
(* ================================================================== *)

(** ** Fuel

    More fuel never changes an outcome other than [OutOfFuel]. *)

Module Fuel.

Import Parser FuelOrder.

Lemma le_M_refl {A} (m : M A) : le_M m m.
Proof. intros s; right; reflexivity. Qed.

Lemma le_M_outOfFuel {A} (m : M A) : le_M outOfFuel m.
Proof. intros s; left; reflexivity. Qed.

Lemma le_M_bind {A B} (m m' : M A) (k k' : A -> M B) :
  le_M m m' -> (forall a, le_M (k a) (k' a)) -> le_M (bind m k) (bind m' k').
Proof.
  intros Hm Hk s. unfold bind.
  destruct (Hm s) as [E | E]; rewrite E.
  - left; reflexivity.
  - destruct (m' s) as [[a s'] | e | ]; [apply Hk | right; reflexivity | right; reflexivity].
Qed.

Lemma le_M_trans {A} (m1 m2 m3 : M A) : le_M m1 m2 -> le_M m2 m3 -> le_M m1 m3.
Proof.
  intros H12 H23 s.
  destruct (H12 s) as [E | E]; [left; exact E |].
  rewrite E. apply H23.
Qed.

(** One step of a monotonicity proof: split a bind, branch on a test, or
    close the goal by a hypothesis on the methods. *)
Ltac mono1 H :=
  match goal with
  | |- le_M (bind _ _) (bind _ _) => apply le_M_bind; [ | intros ? ]
  | |- le_M (if ?c then _ else _) (if ?c then _ else _) => destruct c
  | |- le_M (let '(_, _) := ?x in _) (let '(_, _) := ?x in _) => destruct x
  | |- le_M ?m ?m => apply le_M_refl
  | |- _ => apply H
  end.

Ltac mono H := repeat (mono1 H).

Lemma step_mono (a b : Methods) : le_methods a b -> le_methods (step a) (step b).
Proof.
  intros H.
  split; intros; cbn [step parseBlock parseBlock_loop parseRelational
    parseRelational_loop parseAssignment parseWhileLoop parseWhileLoop_loop
    parseConditional parseConditional_loop parseMultiplyDivide
    parseMultiplyDivide_loop parseAddSubtract parseAddSubtract_loop parseNumber
    parseParentheses parseAccessors parseAccessors_params parseString parseArray
    parseArray_content parseMap parseMap_pairs parseSymbolOrConstant];
    unfold parseBlock_body, parseBlock_loop_body, parseRelational_body,
      parseRelational_loop_body, parseAssignment_body, parseWhileLoop_body,
      parseWhileLoop_loop_body, parseConditional_body, parseConditional_loop_body,
      parseMultiplyDivide_body, parseMultiplyDivide_loop_body, parseAddSubtract_body,
      parseAddSubtract_loop_body, parseNumber_body, parseParentheses_body,
      parseAccessors_body, parseAccessors_params_body, parseString_body,
      parseArray_body, parseArray_content_body, parseMap_body, parseMap_pairs_body,
      parseSymbolOrConstant_body;
    mono H.
Qed.

Lemma noFuel_least (b : Methods) : le_methods noFuel b.
Proof. split; intros; apply le_M_outOfFuel. Qed.

Lemma le_methods_refl (a : Methods) : le_methods a a.
Proof. split; intros; apply le_M_refl. Qed.

Lemma le_methods_trans (a b c : Methods) :
  le_methods a b -> le_methods b c -> le_methods a c.
Proof.
  intros [] []; split; intros; eapply le_M_trans; eauto.
Qed.

Lemma methods_succ (f : nat) : le_methods (methods f) (methods (S f)).
Proof.
  induction f as [| f IH].
  - apply noFuel_least.
  - apply (step_mono IH).
Qed.

Lemma methods_mono (f f' : nat) : f <= f' -> le_methods (methods f) (methods f').
Proof.
  induction 1 as [| f' _ IH].
  - apply le_methods_refl.
  - exact (le_methods_trans IH (methods_succ f')).
Qed.

(** The outcome of [new Parser(input).parse()] on some fuel is its outcome
    on any larger fuel, unless the fuel ran out. *)
Lemma parseInput_mono (f f' : nat) (inp : string) (r : Res Value) :
  f <= f' -> parseInput f inp = r -> r <> OutOfFuel -> parseInput f' inp = r.
Proof.
  intros Hle Hr Hne. unfold parseInput, parse in *.
  destruct (new inp) as [s | e | ]; [ | exact Hr | exact Hr ].
  destruct (le_parseBlock (methods_mono Hle) s) as [E | E].
  - rewrite E in Hr. congruence.
  - rewrite <- E. exact Hr.
Qed.

End Fuel.

(** ** The dot accessor

    [parseAccessors] enters its loop on a dot and its dot branch consumes
    nothing, so the loop test holds again on every turn. *)

Module DotAccessor.

Import Parser.

Lemma parseAccessors_spins (fuel : nat) (nd : AstNode) (s : Parser.t) :
  tokValue s = Ok (Some ".", s) ->
  parseAccessors (methods fuel) nd s = OutOfFuel.
Proof.
  intros Hdot. induction fuel as [| fuel IH]; [reflexivity |].
  cbn [methods step parseAccessors].
  unfold parseAccessors_body, bind. rewrite Hdot. cbn. exact IH.
Qed.

Section IdentifierThenDot.

(** The current token is an identifier and the token after it is a
    dot. *)
Variables (s s' : Parser.t) (tk : Token).
Hypothesis Hcur : currentToken s = Tok tk.
Hypothesis Hid : type tk = Some "identifier".
Hypothesis Hnext : next s = Ok (tt, s').
Hypothesis Hdot : tokValue s' = Ok (Some ".", s').

Lemma parseSymbolOrConstant_spins (fuel : nat) :
  parseSymbolOrConstant (methods fuel) s = OutOfFuel.
Proof.
  destruct fuel as [| fuel]; [reflexivity |].
  cbn [methods step parseSymbolOrConstant].
  unfold parseSymbolOrConstant_body, isConstant, bind, tokType, tokValue, ret.
  repeat (first [rewrite Hcur | rewrite Hid]; cbn -[next methods]).
  rewrite Hnext.
  rewrite (parseAccessors_spins fuel _ Hdot). reflexivity.
Qed.

Lemma parseMultiplyDivide_spins (fuel : nat) :
  parseMultiplyDivide (methods fuel) s = OutOfFuel.
Proof.
  destruct fuel as [| fuel]; [reflexivity |].
  cbn [methods step parseMultiplyDivide].
  unfold parseMultiplyDivide_body, bind.
  rewrite parseSymbolOrConstant_spins. reflexivity.
Qed.

Lemma parseAddSubtract_spins (fuel : nat) :
  parseAddSubtract (methods fuel) s = OutOfFuel.
Proof.
  destruct fuel as [| fuel]; [reflexivity |].
  cbn [methods step parseAddSubtract].
  unfold parseAddSubtract_body, bind.
  rewrite parseMultiplyDivide_spins. reflexivity.
Qed.

Lemma parseRelational_spins (fuel : nat) :
  parseRelational (methods fuel) s = OutOfFuel.
Proof.
  destruct fuel as [| fuel]; [reflexivity |].
  cbn [methods step parseRelational].
  unfold parseRelational_body, bind.
  rewrite parseAddSubtract_spins. reflexivity.
Qed.

Lemma parseConditional_spins (fuel : nat) :
  parseConditional (methods fuel) s = OutOfFuel.
Proof.
  destruct fuel as [| fuel]; [reflexivity |].
  cbn [methods step parseConditional].
  unfold parseConditional_body, bind.
  rewrite parseRelational_spins. reflexivity.
Qed.

Lemma parseWhileLoop_spins (fuel : nat) :
  parseWhileLoop (methods fuel) s = OutOfFuel.
Proof.
  destruct fuel as [| fuel]; [reflexivity |].
  cbn [methods step parseWhileLoop].
  unfold parseWhileLoop_body, bind.
  rewrite parseConditional_spins. reflexivity.
Qed.

Lemma parseAssignment_spins (fuel : nat) :
  parseAssignment (methods fuel) s = OutOfFuel.
Proof.
  destruct fuel as [| fuel]; [reflexivity |].
  cbn [methods step parseAssignment].
  unfold parseAssignment_body, bind.
  rewrite parseWhileLoop_spins. reflexivity.
Qed.

(** [parse()] never returns when the input begins with an identifier
    and a dot. *)
Lemma parse_spins (fuel : nat) :
  startsStatement (value tk) = true ->
  parse fuel s = OutOfFuel.
Proof.
  intros Hstart. unfold parse.
  destruct fuel as [| fuel]; [reflexivity |].
  cbn [methods step parseBlock].
  unfold parseBlock_body, bind, tokValue.
  rewrite Hcur, Hstart. rewrite parseAssignment_spins. reflexivity.
Qed.

End IdentifierThenDot.

End DotAccessor.

(** ** Numbers and dots in the lexer *)

Unset Implicit Arguments.

Module NumberLexing.

Import Lexer CharUtils Digits.

(** A character as a one-character string. *)
Local Abbreviation chr c := (String c EmptyString) (only parsing).

(** *** Strings *)

Lemma append_nil_r (s : string) : s ++ EmptyString = s.
Proof. induction s as [| c s IH]; [reflexivity | simpl; rewrite IH; reflexivity]. Qed.

Lemma append_assoc (a b c : string) : (a ++ b) ++ c = a ++ (b ++ c).
Proof. induction a as [| x a IH]; [reflexivity | simpl; rewrite IH; reflexivity]. Qed.

Lemma length_append (a b : string) :
  String.length (a ++ b) = String.length a + String.length b.
Proof. induction a as [| x a IH]; [reflexivity | simpl; rewrite IH; reflexivity]. Qed.

Lemma substringFrom_0 (s : string) : substringFrom 0 s = s.
Proof.
  unfold substringFrom. rewrite Nat.sub_0_r.
  induction s as [| c s IH]; [reflexivity | simpl; rewrite IH; reflexivity].
Qed.

Lemma substringFrom_cons (p : nat) (c : ascii) (s : string) :
  substringFrom (S p) (String c s) = substringFrom p s.
Proof. reflexivity. Qed.

(** What it means for the rest of the input to begin with [c]. *)
Lemma suffix_head (s : string) :
  forall (p : nat) (c : ascii) (r : string),
    substringFrom p s = String c r ->
    String.get p s = Some c /\ substringFrom (S p) s = r /\ p < String.length s.
Proof.
  induction s as [| a s IH]; intros p c r H.
  - destruct p; discriminate H.
  - destruct p as [| p].
    + rewrite substringFrom_0 in H. injection H as -> ->.
      rewrite substringFrom_cons, substringFrom_0. simpl. repeat split. lia.
    + rewrite substringFrom_cons in H. destruct (IH p c r H) as (Hg & Hs & Hl).
      rewrite substringFrom_cons. simpl. repeat split; [exact Hg | exact Hs | lia].
Qed.

Lemma suffix_append (a : string) :
  forall (s b : string) (p : nat),
    substringFrom p s = a ++ b -> substringFrom (p + String.length a) s = b.
Proof.
  induction a as [| c a IH]; intros s b p H; simpl in *.
  - rewrite Nat.add_0_r. exact H.
  - destruct (suffix_head s p _ _ H) as (_ & Hs & _).
    rewrite Nat.add_succ_r. apply (IH s b (S p) Hs).
Qed.

(** *** The classifier on the first character of a number *)

Lemma number_start_class (c : ascii) :
  isValidPartOfNumber (chr c) = true ->
  isWhitespace (chr c) = false /\ isNewLine (chr c) = false
  /\ isLetterOrUnderscore (chr c) = false.
Proof.
  destruct c as [[] [] [] [] [] [] [] []]; vm_compute; intros H;
    try discriminate H; repeat split.
Qed.

Lemma digit_is_number_start (ch : string) :
  isDigit ch = true -> isValidPartOfNumber ch = true.
Proof. intros H. unfold isValidPartOfNumber. rewrite H. reflexivity. Qed.

Lemma digit_not_dot_or_e (c : ascii) :
  isDigit (chr c) = true -> String.eqb (chr c) "." = false.
Proof.
  destruct c as [[] [] [] [] [] [] [] []]; vm_compute; intros H;
    try discriminate H; reflexivity.
Qed.

(** *** [nextToken] hands a digit or a dot to [recognizeNumberOrDot] *)

Lemma nextToken_number (lx : Lexer.t) (c : ascii) (r : string) :
  substringFrom (position lx) (input lx) = String c r ->
  isValidPartOfNumber (chr c) = true ->
  nextToken lx = Ok (recognizeNumberOrDot lx).
Proof.
  intros Hsuf Hnum.
  destruct (suffix_head _ _ _ _ Hsuf) as (Hget & _ & Hlt).
  destruct (number_start_class c Hnum) as (Hw & Hn & Hl).
  assert (Hchar : charAt (input lx) (position lx) = (chr c))
    by (unfold charAt; rewrite Hget; reflexivity).
  assert (Hskip : skipWhitespaces lx = lx).
  { unfold skipWhitespaces.
    destruct (String.length (input lx) - position lx) as [| k] eqn:E; [reflexivity |].
    simpl. rewrite Hchar, Hw. reflexivity. }
  unfold nextToken.
  destruct (Nat.leb_spec (String.length (input lx)) (position lx)) as [Hge | _]; [lia |].
  rewrite Hskip, Hchar, Hn, Hl, Hnum. reflexivity.
Qed.

(** *** The number recognizer *)

Local Abbreviation fsm := buildNumberRecognizer (only parsing).

Lemma run_from_step (c : ascii) (rest : string) (cur q : Z) (consumed : string)
      (best : option (string * Z)) :
  nextState cur (chr c) = q -> q <> FSM.NoNextState ->
  FSM.run_from fsm (String c rest) cur consumed best =
  FSM.run_from fsm rest q (consumed ++ (chr c))
               (if FSM.accepting fsm q then Some (consumed ++ (chr c), q) else best).
Proof.
  intros Hq Hne. cbn [FSM.run_from buildNumberRecognizer FSM.nextState].
  rewrite Hq. destruct (Z.eqb_spec q FSM.NoNextState) as [E | _]; [contradiction | reflexivity].
Qed.

Lemma run_from_stop (c : ascii) (rest : string) (cur : Z) (consumed : string)
      (best : option (string * Z)) :
  nextState cur (chr c) = FSM.NoNextState ->
  FSM.run_from fsm (String c rest) cur consumed best = FSM.report cur consumed best.
Proof.
  intros Hq. cbn [FSM.run_from buildNumberRecognizer FSM.nextState].
  rewrite Hq. reflexivity.
Qed.

Lemma digit_from_Initial (ch : string) : isDigit ch = true -> nextState 1 ch = 2%Z.
Proof. intros H. unfold nextState. cbn. rewrite H. reflexivity. Qed.

Lemma digit_from_Integer (ch : string) : isDigit ch = true -> nextState 2 ch = 2%Z.
Proof. intros H. unfold nextState. cbn. rewrite H. reflexivity. Qed.

Lemma digit_from_BeginFractional (ch : string) : isDigit ch = true -> nextState 3 ch = 4%Z.
Proof. intros H. unfold nextState. cbn. rewrite H. reflexivity. Qed.

Lemma digit_from_Fractional (ch : string) : isDigit ch = true -> nextState 4 ch = 4%Z.
Proof. intros H. unfold nextState. cbn. rewrite H. reflexivity. Qed.

Lemma other_from_BeginFractional (ch : string) :
  isDigit ch = false -> nextState 3 ch = FSM.NoNextState.
Proof. intros H. unfold nextState. cbn. rewrite H. reflexivity. Qed.

(** A run of digits read in the state [q] it stays in (Integer, or the
    fractional part), the best match so far being all that was consumed. *)
Lemma run_digits (q : Z) (ds : string) :
  (forall ch, isDigit ch = true -> nextState q ch = q) ->
  q <> FSM.NoNextState -> FSM.accepting fsm q = true ->
  all_digits ds = true ->
  forall (tail consumed : string),
    FSM.run_from fsm (ds ++ tail) q consumed (Some (consumed, q)) =
    FSM.run_from fsm tail q (consumed ++ ds) (Some (consumed ++ ds, q)).
Proof.
  intros Hstay Hne Hacc.
  induction ds as [| c ds IH]; intros Hds tail consumed.
  - simpl. rewrite append_nil_r. reflexivity.
  - cbn [all_digits] in Hds. apply andb_prop in Hds. destruct Hds as [Hc Hds].
    simpl append at 1.
    rewrite (run_from_step _ _ _ _ _ _ (Hstay _ Hc) Hne), Hacc.
    rewrite (IH Hds), append_assoc. reflexivity.
Qed.

(** The rest of the input after the dot does not begin with a digit: the
    run ends there. *)
Lemma run_from_BeginFractional_stops (rest consumed : string)
      (best : option (string * Z)) :
  startsWithDigit rest = false ->
  FSM.run_from fsm rest 3 consumed best = FSM.report 3 consumed best.
Proof.
  intros H. destruct rest as [| c rest]; [reflexivity |].
  apply run_from_stop, other_from_BeginFractional. exact H.
Qed.

(** [d+ .] not followed by a digit: the integer is recognized, the dot is
    given back. *)
Lemma run_integer_dot (ds rest : string) :
  is_digits ds = true -> startsWithDigit rest = false ->
  FSM.run fsm (ds ++ "." ++ rest) = (true, ds, 2%Z).
Proof.
  intros Hds Hrest. destruct ds as [| c ds]; [discriminate Hds |].
  cbn [is_digits all_digits] in Hds. apply andb_prop in Hds. destruct Hds as [Hc Hds].
  unfold FSM.run.
  change (FSM.accepting fsm (FSM.initialState fsm)) with false. cbv iota.
  change (FSM.initialState fsm) with 1%Z.
  simpl append at 1.
  rewrite (run_from_step _ _ _ _ _ _ (digit_from_Initial _ Hc)) by discriminate.
  change (FSM.accepting fsm 2) with true. cbv iota. simpl append at 2 3.
  rewrite (run_digits _ _ digit_from_Integer) by (try discriminate; auto).
  simpl append at 1.
  rewrite (run_from_step "."%char rest 2%Z 3%Z _ _) by (try discriminate; reflexivity).
  change (FSM.accepting fsm 3) with false. cbv iota.
  rewrite run_from_BeginFractional_stops by exact Hrest.
  reflexivity.
Qed.

(** A dot not followed by a digit: nothing is recognized, the dot and the
    state it led to are reported. *)
Lemma run_lone_dot (rest : string) :
  startsWithDigit rest = false ->
  FSM.run fsm ("." ++ rest) = (false, ".", 3%Z).
Proof.
  intros Hrest. unfold FSM.run.
  change (FSM.accepting fsm (FSM.initialState fsm)) with false. cbv iota.
  change (FSM.initialState fsm) with 1%Z.
  simpl append at 1.
  rewrite (run_from_step "."%char rest 1%Z 3%Z _ _) by (try discriminate; reflexivity).
  change (FSM.accepting fsm 3) with false. cbv iota.
  rewrite run_from_BeginFractional_stops by exact Hrest.
  reflexivity.
Qed.

(** [d+ . d+] and the end of the input: the whole text is recognized in
    the fractional state. *)
Lemma run_decimal (ds1 ds2 : string) :
  is_digits ds1 = true -> is_digits ds2 = true ->
  FSM.run fsm (ds1 ++ "." ++ ds2) = (true, ds1 ++ "." ++ ds2, 4%Z).
Proof.
  intros H1 H2.
  destruct ds1 as [| c ds1]; [discriminate H1 |].
  destruct ds2 as [| d ds2]; [discriminate H2 |].
  cbn [is_digits all_digits] in H1, H2. apply andb_prop in H1, H2.
  destruct H1 as [Hc H1], H2 as [Hd H2].
  unfold FSM.run.
  change (FSM.accepting fsm (FSM.initialState fsm)) with false. cbv iota.
  change (FSM.initialState fsm) with 1%Z.
  simpl append at 1.
  rewrite (run_from_step _ _ _ _ _ _ (digit_from_Initial _ Hc)) by discriminate.
  change (FSM.accepting fsm 2) with true. cbv iota. simpl append at 2 3.
  rewrite (run_digits _ _ digit_from_Integer) by (try discriminate; auto).
  simpl append at 1.
  rewrite (run_from_step "."%char _ 2%Z 3%Z _ _) by (try discriminate; reflexivity).
  change (FSM.accepting fsm 3) with false. cbv iota.
  rewrite (run_from_step _ _ _ _ _ _ (digit_from_BeginFractional _ Hd)) by discriminate.
  change (FSM.accepting fsm 4) with true. cbv iota.
  rewrite <- (append_nil_r ds2) at 1.
  rewrite (run_digits _ _ digit_from_Fractional) by (try discriminate; auto).
  simpl FSM.run_from. unfold FSM.report.
  rewrite !append_assoc. reflexivity.
Qed.

(** *** The tokens *)

(** At [d+ .] with no digit after the dot, [nextToken] yields the Integer
    token of the digits and moves past them. *)
Lemma nextToken_integer_before_dot (lx : Lexer.t) (ds rest : string) :
  is_digits ds = true -> startsWithDigit rest = false ->
  substringFrom (position lx) (input lx) = ds ++ "." ++ rest ->
  nextToken lx =
  Ok (Tok (newToken TokenType.Integer ds (line lx) (column lx)),
      advance (String.length ds) lx).
Proof.
  intros Hds Hrest Hsuf.
  assert (Hrun := run_integer_dot ds rest Hds Hrest).
  destruct ds as [| c ds]; [discriminate Hds |].
  cbn [is_digits all_digits] in Hds. apply andb_prop in Hds. destruct Hds as [Hc _].
  rewrite (nextToken_number lx c (ds ++ "." ++ rest) Hsuf (digit_is_number_start _ Hc)).
  unfold recognizeNumberOrDot. rewrite Hsuf.
  change buildNumberRecognizer with fsm. rewrite Hrun. reflexivity.
Qed.

(** At a dot with no digit after it, [nextToken] yields the Dot token
    and moves one character on. *)
Lemma nextToken_lone_dot (lx : Lexer.t) (rest : string) :
  startsWithDigit rest = false ->
  substringFrom (position lx) (input lx) = "." ++ rest ->
  nextToken lx =
  Ok (Tok (newToken TokenType.Dot "." (line lx) (column lx)), advance 1 lx).
Proof.
  intros Hrest Hsuf.
  rewrite (nextToken_number lx "."%char rest Hsuf eq_refl).
  unfold recognizeNumberOrDot. rewrite Hsuf.
  change buildNumberRecognizer with fsm. rewrite (run_lone_dot rest Hrest).
  reflexivity.
Qed.

(** At [d+ . d+] and the end of the input, [nextToken] yields the Decimal
    token of the whole text. *)
Lemma nextToken_decimal (lx : Lexer.t) (ds1 ds2 : string) :
  is_digits ds1 = true -> is_digits ds2 = true ->
  substringFrom (position lx) (input lx) = ds1 ++ "." ++ ds2 ->
  nextToken lx =
  Ok (Tok (newToken TokenType.Decimal (ds1 ++ "." ++ ds2) (line lx) (column lx)),
      advance (String.length (ds1 ++ "." ++ ds2)) lx).
Proof.
  intros H1 H2 Hsuf.
  assert (Hrun := run_decimal ds1 ds2 H1 H2).
  destruct ds1 as [| c ds1]; [discriminate H1 |].
  cbn [is_digits all_digits] in H1. apply andb_prop in H1. destruct H1 as [Hc _].
  rewrite (nextToken_number lx c (ds1 ++ "." ++ ds2) Hsuf (digit_is_number_start _ Hc)).
  unfold recognizeNumberOrDot. rewrite Hsuf.
  change buildNumberRecognizer with fsm. rewrite Hrun. reflexivity.
Qed.

(** Once the whole input is consumed [nextToken] yields [EndOfInput]. *)
Lemma nextToken_at_end (lx : Lexer.t) :
  String.length (input lx) <= position lx ->
  nextToken lx = Ok (Tok (mkToken (Some TokenType.EndOfInput) None None None), lx).
Proof.
  intros H. unfold nextToken.
  destruct (Nat.leb_spec (String.length (input lx)) (position lx)); [reflexivity | lia].
Qed.

(** The whole input [d+ . d+] is one Decimal token. *)
Lemma tokenize_decimal (ds1 ds2 : string) (fuel : nat) :
  is_digits ds1 = true -> is_digits ds2 = true ->
  tokenize (2 + fuel) (Lexer.new (ds1 ++ "." ++ ds2)) =
  Ok [Tok (newToken TokenType.Decimal (ds1 ++ "." ++ ds2) 0 0)].
Proof.
  intros H1 H2. unfold tokenize.
  rewrite (nextToken_decimal (Lexer.new (ds1 ++ "." ++ ds2)) ds1 ds2 H1 H2)
    by apply substringFrom_0.
  cbn [Nat.add tokenize_loop typeOf type newToken].
  change (seq (Some TokenType.Decimal) TokenType.EndOfInput) with false. cbv iota.
  rewrite nextToken_at_end by (cbn; lia).
  reflexivity.
Qed.

End NumberLexing.

(** ** Strings, the cursor and whitespace *)

Module Scanning.
Import Lexer CharUtils Lexemes NumberLexing.

Lemma substringFrom_end (s : string) :
  forall p, String.length s <= p -> substringFrom p s = EmptyString.
Proof.
  induction s as [| a s IH]; intros p H.
  - destruct p; reflexivity.
  - destruct p as [| p]; [simpl in H; lia |].
    rewrite substringFrom_cons. apply IH. simpl in H. lia.
Qed.

Lemma suffix_uncons (s : string) :
  forall p, p < String.length s ->
    exists c, String.get p s = Some c
              /\ substringFrom p s = String c (substringFrom (S p) s).
Proof.
  induction s as [| a s IH]; intros p H; [simpl in H; lia |].
  destruct p as [| p].
  - exists a. rewrite substringFrom_0, substringFrom_cons, substringFrom_0. split; reflexivity.
  - rewrite !substringFrom_cons. simpl. apply IH. simpl in H. lia.
Qed.

Lemma suffix_empty (s : string) (p : nat) :
  substringFrom p s = EmptyString -> String.length s <= p.
Proof.
  intros H. destruct (Nat.le_gt_cases (String.length s) p) as [Hle | Hgt]; [exact Hle |].
  destruct (suffix_uncons s p Hgt) as (c & _ & E). rewrite E in H. discriminate H.
Qed.

Lemma charAt_suffix (s : string) (p : nat) (c : ascii) (r : string) :
  substringFrom p s = String c r -> charAt s p = String c EmptyString.
Proof.
  intros H. destruct (suffix_head s p c r H) as (Hg & _). unfold charAt. rewrite Hg. reflexivity.
Qed.

Lemma get_end (s : string) : forall p, String.length s <= p -> String.get p s = None.
Proof.
  induction s as [| a s IH]; intros p H; [reflexivity |].
  destruct p as [| p]; [simpl in H; lia |]. simpl. apply IH. simpl in H. lia.
Qed.

Lemma charAt_end (s : string) (p : nat) :
  String.length s <= p -> charAt s p = EmptyString.
Proof. intros H. unfold charAt. rewrite (get_end s p H). reflexivity. Qed.

(** The character at the cursor heads the rest of the input. *)
Lemma charAt_head (s : string) (p : nat) :
  p < String.length s ->
  exists c, charAt s p = String c EmptyString
            /\ substringFrom p s = String c (substringFrom (S p) s).
Proof.
  intros H. destruct (suffix_uncons s p H) as (c & Hg & E).
  exists c. split; [unfold charAt; rewrite Hg; reflexivity | exact E].
Qed.

Lemma advance_advance (a b : nat) (lx : Lexer.t) :
  advance a (advance b lx) = advance (b + a) lx.
Proof. unfold advance. simpl. f_equal; lia. Qed.

Lemma advance_0 (lx : Lexer.t) : advance 0 lx = lx.
Proof. destruct lx. unfold advance. simpl. f_equal; lia. Qed.

(** *** skipWhitespaces *)

Lemma skip_loop_spec (k : nat) :
  forall lx, k = String.length (input lx) - position lx ->
    exists n, skip_loop k lx = advance n lx
              /\ n <= k
              /\ isWhitespace (charAt (input lx) (position lx + n)) = false
              /\ (forall i, i < n ->
                    isWhitespace (charAt (input lx) (position lx + i)) = true).
Proof.
  induction k as [| k IH]; intros lx Hk.
  - exists 0. rewrite advance_0, Nat.add_0_r. repeat split; [lia | | intros i Hi; lia].
    rewrite charAt_end by lia. reflexivity.
  - simpl. destruct (isWhitespace (charAt (input lx) (position lx))) eqn:E.
    + destruct (IH (advance 1 lx)) as (n & Hs & Hn & Hstop & Hall); [simpl; lia |].
      exists (S n). rewrite Hs, advance_advance. simpl in *.
      repeat split; [lia | | ].
      * replace (position lx + S n) with (position lx + 1 + n) by lia. exact Hstop.
      * intros i Hi. destruct i as [| i]; [rewrite Nat.add_0_r; exact E |].
        replace (position lx + S i) with (position lx + 1 + i) by lia. apply Hall. lia.
    + exists 0. rewrite advance_0, Nat.add_0_r. repeat split; [lia | exact E | intros i Hi; lia].
Qed.

Lemma skipWhitespaces_idem (lx : Lexer.t) :
  skipWhitespaces (skipWhitespaces lx) = skipWhitespaces lx.
Proof.
  destruct (skip_loop_spec _ lx eq_refl) as (n & Hs & _ & Hstop & _).
  fold (skipWhitespaces lx) in Hs. rewrite Hs. unfold skipWhitespaces.
  destruct (String.length (input (advance n lx)) - position (advance n lx)) as [| k]; [reflexivity |].
  simpl. simpl in Hstop. rewrite Hstop. reflexivity.
Qed.

End Scanning.

(** ** The loops of the identifier and string recognizers *)

Module Scanning2.
Import Lexer CharUtils Lexemes NumberLexing Scanning.

(** *** The loop of recognizeIdentifier *)

Lemma identifier_loop_spec (k : nat) :
  forall inp pos acc, k = String.length inp - pos ->
    exists w, identifier_loop inp k pos acc = acc ++ w
              /\ substringFrom pos inp = w ++ substringFrom (pos + String.length w) inp
              /\ all_chars isIdentifierPart w = true
              /\ isIdentifierPart (charAt inp (pos + String.length w)) = false.
Proof.
  induction k as [| k IH]; intros inp pos acc Hk.
  - exists EmptyString. simpl. rewrite append_nil_r, Nat.add_0_r.
    repeat split. rewrite charAt_end by lia. reflexivity.
  - destruct (charAt_head inp pos) as (c & Hc & Hsuf); [lia |].
    simpl. destruct (isIdentifierPart (charAt inp pos)) eqn:E; simpl.
    + destruct (IH inp (pos + 1) (acc ++ charAt inp pos)) as (w & Hw & Hs & Ha & Hstop); [lia |].
      exists (String c w). rewrite Hw, Hc, append_assoc. simpl.
      rewrite Nat.add_1_r in Hs, Hstop. rewrite Nat.add_succ_r.
      repeat split; [rewrite Hsuf, Hs; reflexivity | | exact Hstop].
      rewrite <- Hc, E. exact Ha.
    + exists EmptyString. simpl. rewrite append_nil_r, Nat.add_0_r.
      repeat split. exact E.
Qed.

Lemma identifier_loop_run (w : string) :
  forall inp pos acc rest,
    substringFrom pos inp = w ++ rest ->
    all_chars isIdentifierPart w = true ->
    isIdentifierPart (charAt rest 0) = false ->
    identifier_loop inp (String.length inp - pos) pos acc = acc ++ w.
Proof.
  induction w as [| c w IH]; intros inp pos acc rest Hsuf Hall Hstop; simpl in Hsuf.
  - rewrite append_nil_r.
    destruct (String.length inp - pos) as [| k] eqn:Ek; [reflexivity |].
    simpl. destruct rest as [| c r].
    + apply suffix_empty in Hsuf. lia.
    + rewrite (charAt_suffix inp pos c r Hsuf).
      change (charAt (String c r) 0) with (String c EmptyString) in Hstop.
      rewrite Hstop. reflexivity.
  - cbn [all_chars] in Hall. apply andb_prop in Hall. destruct Hall as [Hc Hall].
    destruct (suffix_head inp pos c (w ++ rest) Hsuf) as (_ & Hs & Hlt).
    destruct (String.length inp - pos) as [| k] eqn:Ek; [lia |].
    simpl. rewrite (charAt_suffix inp pos c _ Hsuf), Hc. simpl.
    replace k with (String.length inp - (pos + 1)) by lia.
    rewrite Nat.add_1_r in *.
    rewrite (IH inp (S pos) (acc ++ String c EmptyString) rest Hs Hall Hstop).
    rewrite append_assoc. reflexivity.
Qed.

(** *** The loop of recognizeString *)


Lemma string_loop_spec (k : nat) :
  forall inp pos acc, k = String.length inp - pos ->
    exists w, string_loop inp k pos acc = acc ++ w
              /\ substringFrom pos inp = w ++ substringFrom (pos + String.length w) inp.
Proof.
  induction k as [| k IH]; intros inp pos acc Hk.
  - exists EmptyString. simpl. rewrite append_nil_r, Nat.add_0_r. split; reflexivity.
  - destruct (charAt_head inp pos) as (c & Hc & Hsuf); [lia |].
    simpl. destruct (String.eqb (charAt inp pos) (String dquote EmptyString)) eqn:E.
    + exists (String c EmptyString). rewrite Hc. simpl. rewrite Nat.add_1_r.
      split; [reflexivity | exact Hsuf].
    + destruct (IH inp (pos + 1) (acc ++ charAt inp pos)) as (w & Hw & Hs); [lia |].
      exists (String c w). rewrite Hw, Hc, append_assoc. simpl.
      rewrite Nat.add_1_r in Hs. rewrite Nat.add_succ_r.
      split; [reflexivity | rewrite Hsuf, Hs; reflexivity].
Qed.

(** The body has no quote and a quote follows it: the loop stops after that quote. *)
Lemma string_loop_closed (body : string) :
  forall inp pos acc rest,
    substringFrom pos inp = body ++ quote ++ rest ->
    all_chars notQuote body = true ->
    string_loop inp (String.length inp - pos) pos acc = acc ++ body ++ quote.
Proof.
  induction body as [| c body IH]; intros inp pos acc rest Hsuf Hall; simpl in Hsuf.
  - destruct (suffix_head inp pos _ _ Hsuf) as (_ & _ & Hlt).
    destruct (String.length inp - pos) as [| k] eqn:Ek; [lia |].
    simpl. rewrite (charAt_suffix inp pos _ _ Hsuf). reflexivity.
  - cbn [all_chars] in Hall. apply andb_prop in Hall. destruct Hall as [Hc Hall].
    destruct (suffix_head inp pos c _ Hsuf) as (_ & Hs & Hlt).
    destruct (String.length inp - pos) as [| k] eqn:Ek; [lia |].
    simpl. rewrite (charAt_suffix inp pos c _ Hsuf).
    unfold notQuote, quote in Hc. apply negb_true_iff in Hc. rewrite Hc.
    replace k with (String.length inp - (pos + 1)) by lia.
    rewrite Nat.add_1_r in *.
    rewrite (IH inp (S pos) (acc ++ String c EmptyString) rest Hs Hall).
    rewrite append_assoc. reflexivity.
Qed.

(** The rest of the input has no quote: the loop runs to the end. *)
Lemma string_loop_open (body : string) :
  forall inp pos acc,
    substringFrom pos inp = body ->
    all_chars notQuote body = true ->
    string_loop inp (String.length inp - pos) pos acc = acc ++ body.
Proof.
  induction body as [| c body IH]; intros inp pos acc Hsuf Hall.
  - apply suffix_empty in Hsuf. replace (String.length inp - pos) with 0 by lia.
    simpl. rewrite append_nil_r. reflexivity.
  - cbn [all_chars] in Hall. apply andb_prop in Hall. destruct Hall as [Hc Hall].
    destruct (suffix_head inp pos c _ Hsuf) as (_ & Hs & Hlt).
    destruct (String.length inp - pos) as [| k] eqn:Ek; [lia |].
    simpl. rewrite (charAt_suffix inp pos c _ Hsuf).
    unfold notQuote, quote in Hc. apply negb_true_iff in Hc. rewrite Hc.
    replace k with (String.length inp - (pos + 1)) by lia.
    rewrite Nat.add_1_r in *.
    rewrite (IH inp (S pos) (acc ++ String c EmptyString) Hs Hall).
    rewrite append_assoc. reflexivity.
Qed.

End Scanning2.

(** ** Runs of the number recognizer *)

Module Numbers.
Import Lexer CharUtils Lexemes NumberLexing Scanning Digits.

Local Abbreviation chr c := (String c EmptyString) (only parsing).
Local Abbreviation fsm := buildNumberRecognizer (only parsing).

(** What a run reports is a prefix of what it was given, whether it
    recognized a number or not. *)
Lemma run_from_prefix (m : FSM.t) (rest : string) :
  forall cur consumed best b t s,
    (forall t0 s0, best = Some (t0, s0) -> exists tl, consumed ++ rest = t0 ++ tl) ->
    FSM.run_from m rest cur consumed best = (b, t, s) ->
    exists tl, consumed ++ rest = t ++ tl.
Proof.
  induction rest as [| c rest IH]; intros cur consumed best b t s Hbest Hrun.
  - simpl in Hrun. unfold FSM.report in Hrun. destruct best as [[t0 s0] |].
    + injection Hrun as _ <- _. apply (Hbest t0 s0 eq_refl).
    + injection Hrun as _ <- _. exists EmptyString. reflexivity.
  - simpl in Hrun.
    destruct (Z.eqb (FSM.nextState m cur (chr c)) FSM.NoNextState).
    + unfold FSM.report in Hrun. destruct best as [[t0 s0] |].
      * injection Hrun as _ <- _. apply (Hbest t0 s0 eq_refl).
      * injection Hrun as _ <- _. exists (String c rest). reflexivity.
    + apply IH in Hrun.
      * destruct Hrun as (tl & E). exists tl. rewrite <- E, append_assoc. reflexivity.
      * intros t0 s0 E.
        destruct (FSM.accepting m (FSM.nextState m cur (chr c))).
        -- injection E as <- _. exists rest. reflexivity.
        -- destruct (Hbest t0 s0 E) as (tl & E'). exists tl.
           rewrite append_assoc. exact E'.
Qed.

Lemma run_prefix (m : FSM.t) (inp : string) (b : bool) (t : string) (s : Z) :
  FSM.accepting m (FSM.initialState m) = false ->
  FSM.run m inp = (b, t, s) -> exists tl, inp = t ++ tl.
Proof.
  intros Hacc Hrun. unfold FSM.run in Hrun. rewrite Hacc in Hrun.
  apply run_from_prefix in Hrun; [exact Hrun | intros t0 s0 E; discriminate E].
Qed.

(** A recognized number is not empty. *)
Lemma run_from_nonempty (m : FSM.t) (rest : string) :
  forall cur consumed best t s,
    (forall t0 s0, best = Some (t0, s0) -> t0 <> EmptyString) ->
    FSM.run_from m rest cur consumed best = (true, t, s) -> t <> EmptyString.
Proof.
  induction rest as [| c rest IH]; intros cur consumed best t s Hbest Hrun.
  - simpl in Hrun. unfold FSM.report in Hrun. destruct best as [[t0 s0] |].
    + injection Hrun as <- _. apply (Hbest t0 s0 eq_refl).
    + discriminate Hrun.
  - simpl in Hrun.
    destruct (Z.eqb (FSM.nextState m cur (chr c)) FSM.NoNextState).
    + unfold FSM.report in Hrun. destruct best as [[t0 s0] |].
      * injection Hrun as <- _. apply (Hbest t0 s0 eq_refl).
      * discriminate Hrun.
    + apply IH in Hrun; [exact Hrun |].
      intros t0 s0 E.
      destruct (FSM.accepting m (FSM.nextState m cur (chr c))).
      * injection E as <- _. destruct consumed; discriminate.
      * apply (Hbest t0 s0 E).
Qed.

(** Once an accepting state was visited the run recognizes a number. *)
Lemma run_from_best (m : FSM.t) (rest : string) :
  forall cur consumed b,
    exists t s, FSM.run_from m rest cur consumed (Some b) = (true, t, s).
Proof.
  induction rest as [| c rest IH]; intros cur consumed [t0 s0].
  - exists t0, s0. reflexivity.
  - simpl. destruct (Z.eqb (FSM.nextState m cur (chr c)) FSM.NoNextState).
    + exists t0, s0. reflexivity.
    + destruct (FSM.accepting m (FSM.nextState m cur (chr c))); apply IH.
Qed.

(** The two exponent states lead to no accepting state: the run falls
    back on the best match it had. *)
Lemma from_BeginExponent (ch : string) :
  nextState 5 ch = 6%Z \/ nextState 5 ch = FSM.NoNextState.
Proof.
  unfold nextState, isDigit_noarg. cbn.
  destruct (String.eqb ch "+" || String.eqb ch "-"); [left | right]; reflexivity.
Qed.

Lemma from_BeginSignedExponent (ch : string) : nextState 6 ch = FSM.NoNextState.
Proof. reflexivity. Qed.

Lemma run_from_signed_exponent (rest consumed : string) (b : string * Z) :
  FSM.run_from fsm rest 6 consumed (Some b) = (true, fst b, snd b).
Proof.
  destruct b as [t0 s0]. destruct rest as [| c rest]; [reflexivity |].
  rewrite run_from_stop by apply from_BeginSignedExponent. reflexivity.
Qed.

Lemma run_from_exponent (rest consumed : string) (b : string * Z) :
  FSM.run_from fsm rest 5 consumed (Some b) = (true, fst b, snd b).
Proof.
  destruct rest as [| c rest]; [destruct b; reflexivity |].
  destruct (from_BeginExponent (chr c)) as [E | E].
  - rewrite (run_from_step c rest 5 6 consumed (Some b) E) by discriminate.
    change (FSM.accepting fsm 6) with false. cbv iota.
    apply run_from_signed_exponent.
  - rewrite run_from_stop by exact E. destruct b; reflexivity.
Qed.

(** After the digits of an integer, anything but a digit or a dot ends the
    number there. *)
Lemma run_from_Integer_ends (rest consumed : string) (b : string * Z) :
  startsWithDigit rest = false -> String.eqb (charAt rest 0) "." = false ->
  FSM.run_from fsm rest 2 consumed (Some b) = (true, fst b, snd b).
Proof.
  intros Hd Hdot. destruct rest as [| c rest]; [destruct b; reflexivity |].
  unfold startsWithDigit in Hd. change (charAt (String c rest) 0) with (chr c) in *.
  assert (E : nextState 2 (chr c) = 5%Z \/ nextState 2 (chr c) = FSM.NoNextState).
  { unfold nextState. cbn -[isDigit String.eqb toLowerCase]. rewrite Hd, Hdot.
    destruct (String.eqb (toLowerCase (chr c)) "e"); [left | right]; reflexivity. }
  destruct E as [E | E].
  - rewrite (run_from_step c rest 2 5 consumed (Some b) E) by discriminate.
    change (FSM.accepting fsm 5) with false. cbv iota. apply run_from_exponent.
  - rewrite run_from_stop by exact E. destruct b; reflexivity.
Qed.

(** After the digits of a fraction, anything but a digit ends the number
    there. *)
Lemma run_from_Fractional_ends (rest consumed : string) (b : string * Z) :
  startsWithDigit rest = false ->
  FSM.run_from fsm rest 4 consumed (Some b) = (true, fst b, snd b).
Proof.
  intros Hd. destruct rest as [| c rest]; [destruct b; reflexivity |].
  unfold startsWithDigit in Hd. change (charAt (String c rest) 0) with (chr c) in *.
  assert (E : nextState 4 (chr c) = 5%Z \/ nextState 4 (chr c) = FSM.NoNextState).
  { unfold nextState. cbn -[isDigit String.eqb toLowerCase]. rewrite Hd.
    destruct (String.eqb (toLowerCase (chr c)) "e"); [left | right]; reflexivity. }
  destruct E as [E | E].
  - rewrite (run_from_step c rest 4 5 consumed (Some b) E) by discriminate.
    change (FSM.accepting fsm 5) with false. cbv iota. apply run_from_exponent.
  - rewrite run_from_stop by exact E. destruct b; reflexivity.
Qed.

(** [d+] followed by anything but a digit or a dot. *)
Lemma run_integer (ds rest : string) :
  is_digits ds = true ->
  startsWithDigit rest = false -> String.eqb (charAt rest 0) "." = false ->
  FSM.run fsm (ds ++ rest) = (true, ds, 2%Z).
Proof.
  intros Hds Hd Hdot. destruct ds as [| c ds]; [discriminate Hds |].
  cbn [is_digits all_digits] in Hds. apply andb_prop in Hds. destruct Hds as [Hc Hds].
  unfold FSM.run.
  change (FSM.accepting fsm (FSM.initialState fsm)) with false. cbv iota.
  change (FSM.initialState fsm) with 1%Z.
  simpl append at 1.
  rewrite (run_from_step _ _ _ _ _ _ (digit_from_Initial _ Hc)) by discriminate.
  change (FSM.accepting fsm 2) with true. cbv iota. simpl append at 2 3.
  rewrite (run_digits _ _ digit_from_Integer) by (try discriminate; auto).
  rewrite run_from_Integer_ends by assumption. reflexivity.
Qed.

(** From the dot on: [. d+] followed by anything but a digit. *)
Lemma run_from_fraction (ds rest consumed : string) (best : option (string * Z)) :
  is_digits ds = true -> startsWithDigit rest = false ->
  FSM.run_from fsm (ds ++ rest) 3 consumed best = (true, consumed ++ ds, 4%Z).
Proof.
  intros Hds Hd. destruct ds as [| c ds]; [discriminate Hds |].
  cbn [is_digits all_digits] in Hds. apply andb_prop in Hds. destruct Hds as [Hc Hds].
  simpl append at 1.
  rewrite (run_from_step _ _ _ _ _ _ (digit_from_BeginFractional _ Hc)) by discriminate.
  change (FSM.accepting fsm 4) with true. cbv iota.
  rewrite (run_digits _ _ digit_from_Fractional) by (try discriminate; auto).
  rewrite run_from_Fractional_ends by assumption.
  cbn [fst snd]. rewrite append_assoc. reflexivity.
Qed.

(** [d* . d+] followed by anything but a digit. *)
Lemma run_fraction (ds1 ds2 rest : string) :
  all_digits ds1 = true -> is_digits ds2 = true -> startsWithDigit rest = false ->
  FSM.run fsm (ds1 ++ "." ++ ds2 ++ rest) = (true, ds1 ++ "." ++ ds2, 4%Z).
Proof.
  intros H1 H2 Hd. unfold FSM.run.
  change (FSM.accepting fsm (FSM.initialState fsm)) with false. cbv iota.
  change (FSM.initialState fsm) with 1%Z.
  destruct ds1 as [| c ds1].
  - cbn [append].
    rewrite (run_from_step "."%char _ 1%Z 3%Z _ _) by (try discriminate; reflexivity).
    change (FSM.accepting fsm 3) with false. cbv iota.
    rewrite run_from_fraction by assumption. reflexivity.
  - cbn [all_digits] in H1. apply andb_prop in H1. destruct H1 as [Hc H1].
    simpl append at 1.
    rewrite (run_from_step _ _ _ _ _ _ (digit_from_Initial _ Hc)) by discriminate.
    change (FSM.accepting fsm 2) with true. cbv iota. simpl append at 2 3.
    rewrite (run_digits _ _ digit_from_Integer) by (try discriminate; auto).
    simpl append at 1.
    rewrite (run_from_step "."%char _ 2%Z 3%Z _ _) by (try discriminate; reflexivity).
    change (FSM.accepting fsm 3) with false. cbv iota.
    rewrite run_from_fraction by assumption.
    rewrite !append_assoc. reflexivity.
Qed.

(** A run that starts on a digit or a dot recognizes a number or reports
    the lone dot. *)
Lemma run_number_or_dot (c : ascii) (rest : string) :
  isValidPartOfNumber (chr c) = true ->
  (exists t s, FSM.run fsm (String c rest) = (true, t, s))
  \/ FSM.run fsm (String c rest) = (false, ".", 3%Z).
Proof.
  intros H. unfold isValidPartOfNumber in H. apply orb_prop in H.
  unfold FSM.run.
  change (FSM.accepting fsm (FSM.initialState fsm)) with false. cbv iota.
  change (FSM.initialState fsm) with 1%Z.
  destruct (isDigit (chr c)) eqn:Hd.
  - left.
    rewrite (run_from_step _ _ _ _ _ _ (digit_from_Initial _ Hd)) by discriminate.
    change (FSM.accepting fsm 2) with true. cbv iota. apply run_from_best.
  - destruct H as [H | H]; [discriminate H |].
    apply String.eqb_eq in H. injection H as ->.
    rewrite (run_from_step "."%char _ 1%Z 3%Z _ _) by (try discriminate; reflexivity).
    change (FSM.accepting fsm 3) with false. cbv iota.
    destruct rest as [| d rest]; [right; reflexivity |].
    destruct (isDigit (chr d)) eqn:Hd'.
    + left.
      rewrite (run_from_step _ _ _ _ _ _ (digit_from_BeginFractional _ Hd')) by discriminate.
      change (FSM.accepting fsm 4) with true. cbv iota. apply run_from_best.
    + right. rewrite run_from_stop by (apply other_from_BeginFractional; exact Hd').
      reflexivity.
Qed.

End Numbers.

(** ** Dispatch and character classes *)

Module Tokens.
Import Lexer CharUtils Lexemes NumberLexing Scanning Scanning2 Numbers Digits.

Local Abbreviation chr c := (String c EmptyString) (only parsing).

Lemma length_substringFrom (s : string) :
  forall p, String.length (substringFrom p s) = String.length s - p.
Proof.
  induction s as [| a s IH]; intros p.
  - destruct p; reflexivity.
  - destruct p as [| p].
    + rewrite substringFrom_0. reflexivity.
    + rewrite substringFrom_cons, IH. reflexivity.
Qed.

Lemma lexeme_intro (lx lx' : Lexer.t) (v tl : string) :
  input lx' = input lx ->
  position lx' = position lx + String.length v ->
  substringFrom (position lx) (input lx) = v ++ tl ->
  lexeme_of lx lx' v.
Proof.
  intros Hi Hp Hs. repeat split; [exact Hi | exact Hp |].
  rewrite Hp, (suffix_append v (input lx) tl (position lx) Hs). exact Hs.
Qed.

(** *** Dispatch *)

Lemma skip_none (lx : Lexer.t) :
  isWhitespace (charAt (input lx) (position lx)) = false -> skipWhitespaces lx = lx.
Proof.
  intros H. unfold skipWhitespaces.
  destruct (String.length (input lx) - position lx); [reflexivity |].
  simpl. rewrite H. reflexivity.
Qed.

Lemma skipWhitespaces_advance (lx : Lexer.t) :
  exists n, skipWhitespaces lx = advance n lx
            /\ position lx + n <= Nat.max (position lx) (String.length (input lx))
            /\ isWhitespace (charAt (input lx) (position lx + n)) = false
            /\ (forall i, i < n ->
                  isWhitespace (charAt (input lx) (position lx + i)) = true).
Proof.
  destruct (skip_loop_spec _ lx eq_refl) as (n & Hs & Hn & Hstop & Hall).
  exists n. repeat split; [exact Hs | lia | exact Hstop | exact Hall].
Qed.


Lemma nextToken_dispatch (lx : Lexer.t) :
  position lx < String.length (input lx) ->
  nextToken lx = dispatch (skipWhitespaces lx).
Proof.
  intros H. unfold nextToken, dispatch.
  destruct (Nat.leb_spec (String.length (input lx)) (position lx)); [lia | reflexivity].
Qed.

Lemma nextToken_here (lx : Lexer.t) :
  position lx < String.length (input lx) ->
  isWhitespace (charAt (input lx) (position lx)) = false ->
  nextToken lx = dispatch lx.
Proof. intros H Hw. rewrite nextToken_dispatch, skip_none by assumption. reflexivity. Qed.

(** *** Character classes *)

Lemma letter_class (c : ascii) :
  isLetterOrUnderscore (chr c) = true ->
  isWhitespace (chr c) = false /\ isNewLine (chr c) = false
  /\ isIdentifierPart (chr c) = true.
Proof.
  destruct c as [[] [] [] [] [] [] [] []]; vm_compute; intros H;
    try discriminate H; repeat split.
Qed.

Lemma newline_is (ch : string) : isNewLine ch = true -> ch = TokenType.Newline.
Proof.
  destruct ch as [| c [| d r]]; try discriminate.
  destruct c as [[] [] [] [] [] [] [] []]; vm_compute; intros H;
    try discriminate H; reflexivity.
Qed.

Lemma includes_In (l : list string) (x : string) :
  includes l x = true -> In x l.
Proof.
  unfold includes. intros H. apply existsb_exists in H. destruct H as (y & Hy & E).
  apply String.eqb_eq in E. subst y. exact Hy.
Qed.

End Tokens.

(** ** The tokens of whitespace, identifiers, strings and numbers *)

Module Tokens2.
Import Lexer CharUtils Lexemes NumberLexing Scanning Scanning2 Numbers Digits Tokens.

Local Abbreviation chr c := (String c EmptyString) (only parsing).

(** *** Whitespace *)

Lemma skipWhitespaces_run (ws : string) :
  forall lx rest,
    substringFrom (position lx) (input lx) = ws ++ rest ->
    all_chars isWhitespace ws = true ->
    isWhitespace (charAt rest 0) = false ->
    skipWhitespaces lx = advance (String.length ws) lx.
Proof.
  induction ws as [| c ws IH]; intros lx rest Hsuf Hall Hstop; simpl in Hsuf.
  - rewrite advance_0. apply skip_none.
    destruct rest as [| c r].
    + apply suffix_empty in Hsuf. rewrite charAt_end by exact Hsuf. reflexivity.
    + rewrite (charAt_suffix _ _ c r Hsuf). exact Hstop.
  - cbn [all_chars] in Hall. apply andb_prop in Hall. destruct Hall as [Hc Hall].
    destruct (suffix_head _ _ c _ Hsuf) as (_ & Hs & Hlt).
    unfold skipWhitespaces.
    destruct (String.length (input lx) - position lx) as [| k] eqn:Ek; [lia |].
    simpl. rewrite (charAt_suffix _ _ c _ Hsuf), Hc.
    assert (E : skipWhitespaces (advance 1 lx) = advance (String.length ws) (advance 1 lx)).
    { apply (IH (advance 1 lx) rest); [| exact Hall | exact Hstop].
      simpl. rewrite Nat.add_1_r. exact Hs. }
    unfold skipWhitespaces in E. simpl in E.
    replace (String.length (input lx) - (position lx + 1)) with k in E by lia.
    rewrite E, advance_advance. reflexivity.
Qed.

Lemma nextToken_after_whitespace (lx : Lexer.t) (ws rest : string) :
  substringFrom (position lx) (input lx) = ws ++ rest ->
  all_chars isWhitespace ws = true ->
  rest <> EmptyString ->
  isWhitespace (charAt rest 0) = false ->
  nextToken lx = nextToken (advance (String.length ws) lx).
Proof.
  intros Hsuf Hall Hne Hstop.
  assert (Hrest := suffix_append ws _ rest _ Hsuf).
  destruct rest as [| c r]; [contradiction |].
  destruct (suffix_head _ _ c r Hrest) as (_ & _ & Hlt).
  rewrite nextToken_dispatch by lia.
  rewrite (skipWhitespaces_run ws lx _ Hsuf Hall Hstop).
  symmetry. apply nextToken_here; [exact Hlt |].
  simpl. rewrite (charAt_suffix _ _ c r Hrest). exact Hstop.
Qed.

Lemma nextToken_only_whitespace (lx : Lexer.t) (ws : string) :
  substringFrom (position lx) (input lx) = ws ->
  ws <> EmptyString ->
  all_chars isWhitespace ws = true ->
  nextToken lx = Throw (Error unrecognized).
Proof.
  intros Hsuf Hne Hall.
  assert (Hlt : position lx < String.length (input lx)).
  { destruct ws as [| c r]; [contradiction |].
    destruct (suffix_head _ _ c r Hsuf) as (_ & _ & Hlt). exact Hlt. }
  rewrite nextToken_dispatch by exact Hlt.
  rewrite <- (append_nil_r ws) in Hsuf.
  rewrite (skipWhitespaces_run ws lx _ Hsuf Hall eq_refl).
  unfold dispatch. simpl.
  rewrite charAt_end; [reflexivity |].
  rewrite append_nil_r in Hsuf.
  assert (E := length_substringFrom (input lx) (position lx)). rewrite Hsuf in E. lia.
Qed.

(** *** Identifiers and keywords *)

Lemma nextToken_identifier (lx : Lexer.t) (c : ascii) (w rest : string) :
  substringFrom (position lx) (input lx) = String c w ++ rest ->
  isLetterOrUnderscore (chr c) = true ->
  all_chars isIdentifierPart w = true ->
  isIdentifierPart (charAt rest 0) = false ->
  nextToken lx =
  Ok (Tok (newToken (if includes keywords (String c w) then String c w
                     else TokenType.Identifier)
                    (String c w) (line lx) (column lx)),
      advance (String.length (String c w)) lx).
Proof.
  intros Hsuf Hc Hall Hstop.
  destruct (letter_class c Hc) as (Hw & Hn & Hi).
  destruct (suffix_head _ _ c _ Hsuf) as (_ & _ & Hlt).
  assert (Hch := charAt_suffix _ _ c _ Hsuf).
  rewrite nextToken_here by (try rewrite Hch; assumption).
  unfold dispatch. rewrite Hch, Hn, Hc.
  unfold recognizeIdentifier.
  rewrite (identifier_loop_run (String c w) _ _ EmptyString rest Hsuf)
    by (try exact Hstop; cbn [all_chars]; rewrite Hi; exact Hall).
  cbn [append]. destruct (includes keywords (String c w)); reflexivity.
Qed.

(** *** Strings *)

Lemma quote_dispatch (lx : Lexer.t) (r : string) :
  substringFrom (position lx) (input lx) = String dquote r ->
  nextToken lx = Ok (recognizeString lx).
Proof.
  intros Hsuf.
  destruct (suffix_head _ _ _ _ Hsuf) as (_ & _ & Hlt).
  assert (Hch := charAt_suffix _ _ _ _ Hsuf).
  rewrite nextToken_here by (first [exact Hlt | rewrite Hch; reflexivity]).
  unfold dispatch. rewrite Hch. reflexivity.
Qed.

Lemma nextToken_string_closed (lx : Lexer.t) (body rest : string) :
  substringFrom (position lx) (input lx) = quote ++ body ++ quote ++ rest ->
  all_chars notQuote body = true ->
  nextToken lx =
  Ok (Tok (newToken TokenType.String_ (quote ++ body ++ quote) (line lx) (column lx)),
      advance (String.length (quote ++ body ++ quote)) lx).
Proof.
  intros Hsuf Hall. rewrite (quote_dispatch lx _ Hsuf).
  destruct (suffix_head _ _ _ _ Hsuf) as (_ & Hs & _).
  unfold recognizeString. rewrite Nat.add_1_r.
  rewrite (string_loop_closed body _ _ _ rest Hs Hall). reflexivity.
Qed.

Lemma nextToken_string_open (lx : Lexer.t) (body : string) :
  substringFrom (position lx) (input lx) = quote ++ body ->
  all_chars notQuote body = true ->
  nextToken lx =
  Ok (Tok (newToken TokenType.String_ (quote ++ body) (line lx) (column lx)),
      advance (String.length (quote ++ body)) lx)
  /\ position lx + String.length (quote ++ body) = String.length (input lx).
Proof.
  intros Hsuf Hall. split.
  - rewrite (quote_dispatch lx _ Hsuf).
    destruct (suffix_head _ _ _ _ Hsuf) as (_ & Hs & _).
    unfold recognizeString. rewrite Nat.add_1_r.
    rewrite (string_loop_open body _ _ _ Hs Hall). reflexivity.
  - destruct (suffix_head _ _ _ _ Hsuf) as (_ & _ & Hlt).
    assert (E := length_substringFrom (input lx) (position lx)). rewrite Hsuf in E. lia.
Qed.

(** *** Numbers *)

Lemma nextToken_integer (lx : Lexer.t) (ds rest : string) :
  substringFrom (position lx) (input lx) = ds ++ rest ->
  is_digits ds = true ->
  startsWithDigit rest = false -> String.eqb (charAt rest 0) "." = false ->
  nextToken lx =
  Ok (Tok (newToken TokenType.Integer ds (line lx) (column lx)),
      advance (String.length ds) lx).
Proof.
  intros Hsuf Hds Hd Hdot.
  assert (Hrun := run_integer ds rest Hds Hd Hdot).
  destruct ds as [| c ds]; [discriminate Hds |].
  cbn [is_digits all_digits] in Hds. apply andb_prop in Hds. destruct Hds as [Hc _].
  rewrite (nextToken_number lx c (ds ++ rest) Hsuf (digit_is_number_start _ Hc)).
  unfold recognizeNumberOrDot. rewrite Hsuf, Hrun. reflexivity.
Qed.

Lemma nextToken_fraction (lx : Lexer.t) (ds1 ds2 rest : string) :
  substringFrom (position lx) (input lx) = ds1 ++ "." ++ ds2 ++ rest ->
  all_digits ds1 = true -> is_digits ds2 = true ->
  startsWithDigit rest = false ->
  nextToken lx =
  Ok (Tok (newToken TokenType.Decimal (ds1 ++ "." ++ ds2) (line lx) (column lx)),
      advance (String.length (ds1 ++ "." ++ ds2)) lx).
Proof.
  intros Hsuf H1 H2 Hd.
  assert (Hrun := run_fraction ds1 ds2 rest H1 H2 Hd).
  assert (Hfirst : exists c r, ds1 ++ "." ++ ds2 ++ rest = String c r
                               /\ isValidPartOfNumber (chr c) = true).
  { destruct ds1 as [| c ds1].
    - exists "."%char, (ds2 ++ rest). split; reflexivity.
    - cbn [all_digits] in H1. apply andb_prop in H1. destruct H1 as [Hc _].
      exists c, (ds1 ++ "." ++ ds2 ++ rest). split; [reflexivity |].
      apply digit_is_number_start. exact Hc. }
  destruct Hfirst as (c & r & E & Hc).
  rewrite (nextToken_number lx c r) by (try exact Hc; rewrite Hsuf; exact E).
  unfold recognizeNumberOrDot. rewrite Hsuf, Hrun. reflexivity.
Qed.

End Tokens2.

(** ** Each recognizer returns the text it moved past *)

Module Lexes.
Import Lexer CharUtils Lexemes NumberLexing Scanning Scanning2 Numbers Digits Tokens Tokens2.

Local Abbreviation chr c := (String c EmptyString) (only parsing).


Lemma lexes_intro (lx lx' : Lexer.t) (tk : Token) (v tl : string) :
  value tk = Some v -> v <> EmptyString ->
  input lx' = input lx ->
  position lx' = position lx + String.length v ->
  substringFrom (position lx) (input lx) = v ++ tl ->
  lexes (Tok tk, lx') lx.
Proof.
  intros Hv Hne Hi Hp Hs. exists tk, v.
  split; [reflexivity |]. split; [exact Hv |]. split; [exact Hne |].
  apply (lexeme_intro lx lx' v tl Hi Hp Hs).
Qed.

Lemma one_char (lx : Lexer.t) (tk : Token) (lx' : Lexer.t) (c : ascii) :
  position lx < String.length (input lx) ->
  charAt (input lx) (position lx) = chr c ->
  value tk = Some (chr c) ->
  input lx' = input lx -> position lx' = position lx + 1 ->
  lexes (Tok tk, lx') lx.
Proof.
  intros Hlt Hc Hv Hi Hp.
  destruct (charAt_head _ _ Hlt) as (c' & Hc' & Hsuf).
  rewrite Hc in Hc'. injection Hc' as <-.
  apply (lexes_intro lx lx' tk (chr c) (substringFrom (S (position lx)) (input lx)) Hv); [discriminate | exact Hi | exact Hp | exact Hsuf].
Qed.

Lemma lookahead_some (lx : Lexer.t) (l : string) :
  lookahead lx = Some l ->
  exists c d, l = chr d
              /\ substringFrom (position lx) (input lx) =
                 String c (String d (substringFrom (position lx + 2) (input lx))).
Proof.
  unfold lookahead. intros H.
  destruct (Nat.ltb_spec (position lx + 1) (String.length (input lx))) as [Hlt | Hge];
    [| discriminate H].
  injection H as <-.
  destruct (charAt_head (input lx) (position lx)) as (c & _ & E1); [lia |].
  destruct (charAt_head (input lx) (position lx + 1) Hlt) as (d & Hd & E2).
  exists c, d. split; [exact Hd |].
  rewrite E1. rewrite <- Nat.add_1_r, E2.
  replace (S (position lx + 1)) with (position lx + 2) by lia. reflexivity.
Qed.

Lemma two_chars (lx : Lexer.t) (tk : Token) (lx' : Lexer.t) (c d : ascii) (l : string) :
  charAt (input lx) (position lx) = chr c ->
  lookahead lx = Some l -> l = chr d ->
  value tk = Some (String c (chr d)) ->
  input lx' = input lx -> position lx' = position lx + 1 + 1 ->
  lexes (Tok tk, lx') lx.
Proof.
  intros Hc Hl -> Hv Hi Hp. replace (position lx + 1 + 1) with (position lx + 2) in Hp by lia.
  destruct (lookahead_some lx _ Hl) as (c' & d' & Hd & Hsuf).
  injection Hd as <-.
  assert (Hc' := charAt_suffix _ _ _ _ Hsuf). rewrite Hc in Hc'. injection Hc' as <-.
  apply (lexes_intro lx lx' tk (String c (chr d)) (substringFrom (position lx + 2) (input lx)) Hv);
    [discriminate | exact Hi | exact Hp | exact Hsuf].
Qed.

Lemma recognizeDelimiter_lexes (lx : Lexer.t) :
  position lx < String.length (input lx) -> lexes (recognizeDelimiter lx) lx.
Proof.
  intros Hlt. destruct (charAt_head _ _ Hlt) as (c & Hc & _).
  unfold recognizeDelimiter. rewrite Hc.
  apply (one_char lx _ _ c Hlt Hc); reflexivity.
Qed.

Lemma recognizeNewLine_lexes (lx : Lexer.t) :
  position lx < String.length (input lx) ->
  isNewLine (charAt (input lx) (position lx)) = true ->
  lexes (recognizeNewLine lx) lx.
Proof.
  intros Hlt Hn. apply newline_is in Hn.
  unfold recognizeNewLine.
  apply (one_char lx _ _ "010"%char Hlt Hn); reflexivity.
Qed.

Lemma recognizeArithmeticOperator_lexes (lx : Lexer.t) :
  position lx < String.length (input lx) ->
  isArithmeticOperator (charAt (input lx) (position lx)) = true ->
  lexes (recognizeArithmeticOperator lx) lx.
Proof.
  intros Hlt Ha. apply includes_In in Ha. unfold recognizeArithmeticOperator.
  destruct Ha as [E | [E | [E | [E | [E | []]]]]]; rewrite <- E; cbn [String.eqb Ascii.eqb Bool.eqb];
    cbv iota; symmetry in E;
    eapply (one_char lx _ _ _ Hlt E); reflexivity.
Qed.

Lemma recognizeComparisonOperator_lexes (lx : Lexer.t) :
  position lx < String.length (input lx) ->
  isComparisonOperator (charAt (input lx) (position lx)) = true ->
  lexes (recognizeComparisonOperator lx) lx.
Proof.
  intros Hlt Ha. apply includes_In in Ha. unfold recognizeComparisonOperator.
  destruct (lookahead lx) as [l |] eqn:El.
  - destruct (lookahead_some lx l El) as (c & d & Hd & _).
    destruct (String.eqb l "=") eqn:Eq.
    + apply String.eqb_eq in Eq.
      destruct Ha as [E | [E | [E | []]]]; rewrite <- E; cbn [String.eqb Ascii.eqb Bool.eqb];
        cbv iota; symmetry in E;
        eapply (two_chars lx _ _ _ _ l E El Eq); reflexivity.
    + destruct Ha as [E | [E | [E | []]]]; rewrite <- E; cbn [String.eqb Ascii.eqb Bool.eqb];
        cbv iota; symmetry in E;
        eapply (one_char lx _ _ _ Hlt E); reflexivity.
  - destruct Ha as [E | [E | [E | []]]]; rewrite <- E; cbn [String.eqb Ascii.eqb Bool.eqb];
      cbv iota; symmetry in E;
      eapply (one_char lx _ _ _ Hlt E); reflexivity.
Qed.

Lemma recognizeIdentifier_lexes (lx : Lexer.t) :
  position lx < String.length (input lx) ->
  isLetterOrUnderscore (charAt (input lx) (position lx)) = true ->
  lexes (recognizeIdentifier lx) lx.
Proof.
  intros Hlt Hl. unfold recognizeIdentifier.
  destruct (identifier_loop_spec _ (input lx) (position lx) EmptyString eq_refl)
    as (w & Hw & Hs & _ & _).
  rewrite Hw. cbn [append].
  assert (Hne : w <> EmptyString).
  { destruct (charAt_head _ _ Hlt) as (c & Hc & _). rewrite Hc in Hl.
    destruct (letter_class c Hl) as (_ & _ & Hi).
    intros ->.
    destruct (String.length (input lx) - position lx) as [| k] eqn:Ek; [lia |].
    simpl in Hw. rewrite Hc, Hi in Hw. simpl in Hw.
    destruct (identifier_loop_spec k (input lx) (position lx + 1) (chr c)) as (w' & Hw' & _); [lia |].
    rewrite Hw' in Hw. discriminate Hw. }
  destruct (includes keywords w);
    (eapply lexes_intro; [reflexivity | exact Hne | reflexivity | reflexivity | exact Hs]).
Qed.

Lemma recognizeString_lexes (lx : Lexer.t) :
  charAt (input lx) (position lx) = quote -> lexes (recognizeString lx) lx.
Proof.
  intros Hq.
  assert (Hlt : position lx < String.length (input lx)).
  { destruct (Nat.le_gt_cases (String.length (input lx)) (position lx)) as [H | H]; [| exact H].
    rewrite charAt_end in Hq by exact H. discriminate Hq. }
  destruct (charAt_head _ _ Hlt) as (c & Hc & Hsuf).
  rewrite Hq in Hc. injection Hc as <-.
  unfold recognizeString.
  destruct (string_loop_spec _ (input lx) (position lx + 1) quote eq_refl) as (w & Hw & Hs).
  fold quote. rewrite Hw.
  eapply lexes_intro; [reflexivity | discriminate | reflexivity | reflexivity |].
  rewrite Hsuf, <- Nat.add_1_r, Hs. reflexivity.
Qed.

Lemma recognizeNumberOrDot_lexes (lx : Lexer.t) :
  position lx < String.length (input lx) ->
  isValidPartOfNumber (charAt (input lx) (position lx)) = true ->
  lexes (recognizeNumberOrDot lx) lx.
Proof.
  intros Hlt Hv. destruct (charAt_head _ _ Hlt) as (c & Hc & Hsuf).
  rewrite Hc in Hv. unfold recognizeNumberOrDot. rewrite Hsuf.
  destruct (run_number_or_dot c (substringFrom (S (position lx)) (input lx)) Hv)
    as [(t & s & Hrun) | Hrun]; rewrite Hrun.
  - destruct (run_prefix buildNumberRecognizer _ _ _ _ eq_refl Hrun) as (tl & Htl).
    eapply lexes_intro; [reflexivity | | reflexivity | reflexivity | rewrite Hsuf; exact Htl].
    unfold FSM.run in Hrun.
    apply (run_from_nonempty _ _ _ _ _ _ _) in Hrun; [exact Hrun |].
    intros t0 s0 E. discriminate E.
  - destruct (run_prefix buildNumberRecognizer _ _ _ _ eq_refl Hrun) as (tl & Htl).
    cbn [String.eqb Ascii.eqb Bool.eqb andb Z.eqb Pos.eqb]. unfold recognizeDot.
    eapply lexes_intro; [reflexivity | discriminate | reflexivity | reflexivity |].
    rewrite Hsuf. exact Htl.
Qed.

End Lexes.

(** ** The lexer moves forward *)

Module Progress.
Import Lexer CharUtils Lexemes NumberLexing Scanning Scanning2 Numbers Digits Tokens Tokens2 Lexes.

Local Abbreviation chr c := (String c EmptyString) (only parsing).

(** Past the end of the input no recognizer is chosen. *)
Lemma dispatch_in_range (lx : Lexer.t) (r : TokenVal * Lexer.t) :
  dispatch lx = Ok r -> position lx < String.length (input lx).
Proof.
  intros H.
  destruct (Nat.le_gt_cases (String.length (input lx)) (position lx)) as [Hge | Hlt];
    [| exact Hlt].
  unfold dispatch in H. rewrite charAt_end in H by exact Hge. discriminate H.
Qed.

Lemma recognizeOperator_lexes (lx : Lexer.t) :
  position lx < String.length (input lx) ->
  isOperator (charAt (input lx) (position lx)) = true ->
  isBooleanOperator (charAt (input lx) (position lx)) = false ->
  lexes (recognizeOperator lx) lx.
Proof.
  intros Hlt Ho Hb. unfold recognizeOperator. unfold isOperator in Ho. rewrite Hb in Ho.
  destruct (isComparisonOperator (charAt (input lx) (position lx))) eqn:Ec.
  - apply recognizeComparisonOperator_lexes; assumption.
  - destruct (isArithmeticOperator (charAt (input lx) (position lx))) eqn:Ea.
    + apply recognizeArithmeticOperator_lexes; assumption.
    + discriminate Ho.
Qed.

Lemma dispatch_lexes (lx : Lexer.t) (r : TokenVal * Lexer.t) :
  isBooleanOperator (charAt (input lx) (position lx)) = false ->
  dispatch lx = Ok r -> lexes r lx.
Proof.
  intros Hb H. assert (Hlt := dispatch_in_range lx r H).
  unfold dispatch in H.
  destruct (isNewLine (charAt (input lx) (position lx))) eqn:E1.
  { injection H as <-. apply recognizeNewLine_lexes; assumption. }
  destruct (isLetterOrUnderscore (charAt (input lx) (position lx))) eqn:E2.
  { injection H as <-. apply recognizeIdentifier_lexes; assumption. }
  destruct (isValidPartOfNumber (charAt (input lx) (position lx))) eqn:E3.
  { injection H as <-. apply recognizeNumberOrDot_lexes; assumption. }
  destruct (isOperator (charAt (input lx) (position lx))) eqn:E4.
  { injection H as <-. apply recognizeOperator_lexes; assumption. }
  destruct (isDelimiter (charAt (input lx) (position lx))) eqn:E5.
  { injection H as <-. apply recognizeDelimiter_lexes; assumption. }
  destruct (String.eqb (charAt (input lx) (position lx)) (String dquote EmptyString)) eqn:E6.
  { injection H as <-. apply recognizeString_lexes. apply String.eqb_eq. exact E6. }
  discriminate H.
Qed.

Lemma recognizeBooleanOperator_moves (lx : Lexer.t) :
  isBooleanOperator (charAt (input lx) (position lx)) = true ->
  input (snd (recognizeBooleanOperator lx)) = input lx
  /\ position lx < position (snd (recognizeBooleanOperator lx))
  /\ fst (recognizeBooleanOperator lx) <> UndefinedToken.
Proof.
  intros Hb. apply includes_In in Hb. unfold recognizeBooleanOperator.
  destruct Hb as [E | [E | [E | []]]]; rewrite <- E; cbn [String.eqb Ascii.eqb Bool.eqb];
    cbv iota; destruct (lookahead lx) as [l |]; cbn [andb];
    try destruct (seq (Some l) _); simpl; repeat split; try lia; discriminate.
Qed.

Lemma lexes_moves (r : TokenVal * Lexer.t) (lx : Lexer.t) :
  lexes r lx ->
  input (snd r) = input lx /\ position lx < position (snd r)
  /\ fst r <> UndefinedToken.
Proof.
  intros (tk & v & Hf & _ & Hne & Hi & Hp & _).
  repeat split; [exact Hi | | rewrite Hf; discriminate].
  destruct v; [contradiction | simpl in Hp; lia].
Qed.

Lemma dispatch_moves (lx : Lexer.t) (r : TokenVal * Lexer.t) :
  dispatch lx = Ok r ->
  input (snd r) = input lx /\ position lx < position (snd r)
  /\ fst r <> UndefinedToken.
Proof.
  intros H.
  destruct (isBooleanOperator (charAt (input lx) (position lx))) eqn:Hb.
  - assert (Hr : r = recognizeBooleanOperator lx).
    { pose proof Hb as Hb'. apply includes_In in Hb'. unfold dispatch in H.
      destruct Hb' as [E | [E | [E | []]]]; rewrite <- E in H; simpl in H;
        injection H as <-; unfold recognizeOperator; rewrite <- E; reflexivity. }
    rewrite Hr. apply recognizeBooleanOperator_moves. exact Hb.
  - apply lexes_moves. apply (dispatch_lexes lx r Hb H).
Qed.

Lemma skipWhitespaces_keeps (lx : Lexer.t) :
  input (skipWhitespaces lx) = input lx
  /\ position lx <= position (skipWhitespaces lx).
Proof.
  destruct (skipWhitespaces_advance lx) as (n & Hs & _). rewrite Hs. simpl. split; [reflexivity | lia].
Qed.

(** Every call of [nextToken] before the end of the input moves the cursor
    forward and hands back a token or the Error object. *)
Lemma nextToken_moves (lx lx' : Lexer.t) (tv : TokenVal) :
  position lx < String.length (input lx) ->
  nextToken lx = Ok (tv, lx') ->
  input lx' = input lx /\ position lx < position lx' /\ tv <> UndefinedToken.
Proof.
  intros Hlt H. rewrite nextToken_dispatch in H by exact Hlt.
  destruct (dispatch_moves _ _ H) as (Hi & Hp & Hd).
  destruct (skipWhitespaces_keeps lx) as (Hi' & Hp').
  simpl in *. repeat split; [congruence | lia | exact Hd].
Qed.

Lemma nextToken_throws (lx : Lexer.t) (e : Exn) :
  nextToken lx = Throw e -> e = Error unrecognized.
Proof.
  unfold nextToken.
  repeat match goal with
         | |- context [if ?b then _ else _] => destruct b
         end; intros H; congruence.
Qed.

Lemma nextToken_fuel (lx : Lexer.t) : nextToken lx <> OutOfFuel.
Proof.
  unfold nextToken.
  repeat match goal with
         | |- context [if ?b then _ else _] => destruct b
         end; discriminate.
Qed.


Lemma tokenize_loop_terminates (n : nat) :
  forall fuel token lx tokens,
    token <> UndefinedToken ->
    String.length (input lx) - position lx <= n -> n + 2 <= fuel ->
    (exists toks, tokenize_loop fuel token lx tokens = Ok toks)
    \/ tokenize_loop fuel token lx tokens = Throw (Error unrecognized).
Proof.
  induction n as [| n IH]; intros fuel token lx tokens Hdef Hn Hfuel;
    (destruct fuel as [| fuel]; [lia |]); cbn [tokenize_loop].
  - destruct token as [tk | msg |]; [| | contradiction]; cbn [typeOf];
      (match goal with |- context [if ?b then _ else _] => destruct b end;
       [left; eexists; reflexivity |]);
      rewrite nextToken_at_end by lia;
      (destruct fuel as [| fuel]; [lia |]); left; eexists; reflexivity.
  - destruct token as [tk | msg |]; [| | contradiction]; cbn [typeOf];
      (match goal with |- context [if ?b then _ else _] => destruct b end;
       [left; eexists; reflexivity |]);
      (destruct (Nat.le_gt_cases (String.length (input lx)) (position lx)) as [Hge | Hlt];
       [ rewrite nextToken_at_end by exact Hge;
         (destruct fuel as [| fuel]; [lia |]); left; eexists; reflexivity
       | destruct (nextToken lx) as [[tv lx'] | e |] eqn:E;
         [ destruct (nextToken_moves lx lx' tv Hlt E) as (Hi & Hp & Hd);
           apply IH; [exact Hd | rewrite Hi; lia | lia]
         | right; rewrite (nextToken_throws lx e E); reflexivity
         | exfalso; exact (nextToken_fuel lx E) ] ]).
Qed.

(** [tokenize] ends within [input.length + 2] turns of its loop, with the
    tokens or with the error of an unrecognized character. *)
Lemma tokenize_terminates (lx : Lexer.t) (fuel : nat) :
  String.length (input lx) - position lx + 2 <= fuel ->
  (exists toks, tokenize fuel lx = Ok toks)
  \/ tokenize fuel lx = Throw (Error unrecognized).
Proof.
  intros Hfuel. unfold tokenize.
  destruct (Nat.le_gt_cases (String.length (input lx)) (position lx)) as [Hge | Hlt].
  - rewrite nextToken_at_end by exact Hge.
    destruct fuel as [| fuel]; [lia |]. left. eexists. reflexivity.
  - destruct (nextToken lx) as [[tv lx'] | e |] eqn:E.
    + destruct (nextToken_moves lx lx' tv Hlt E) as (Hi & Hp & Hd).
      apply (tokenize_loop_terminates (String.length (input lx) - position lx - 1));
        [exact Hd | rewrite Hi; lia | lia].
    + right. rewrite (nextToken_throws lx e E). reflexivity.
    + exfalso. exact (nextToken_fuel lx E).
Qed.

End Progress.

(** ** The parser on a single token *)

Module Atoms.
Import Lexer CharUtils Lexemes NumberLexing Scanning Scanning2 Numbers Digits Tokens Tokens2 Lexes Progress.
Import Parser FuelOrder Fuel.

Local Abbreviation chr c := (String c EmptyString) (only parsing).

(** More fuel keeps the outcome of [parse]. *)
Lemma parse_mono (f f' : nat) (s : Parser.t) (r : Value * Parser.t) :
  f <= f' -> parse f s = Ok r -> parse f' s = Ok r.
Proof.
  intros Hle H. unfold parse in *.
  destruct (le_parseBlock (methods_mono Hle) s) as [E | E]; congruence.
Qed.

Section OneToken.

(** The current token has the type [ty] and the value [v]; the token after
    it is EndOfInput. *)
Variables (lx lx' : Lexer.t) (ty v : string) (l c : option nat).
Hypothesis Hend : Lexer.nextToken lx = Ok (endToken, lx').

Let s : Parser.t := Parser.mk lx (Tok (mkToken (Some ty) (Some v) l c)).
Let s_end : Parser.t := Parser.mk lx' endToken.

Lemma next_to_end : next s = Ok (tt, s_end).
Proof. unfold next, s. cbn [lexer]. rewrite Hend. reflexivity. Qed.

Lemma tokType_s : tokType s = Ok (Some ty, s).
Proof. reflexivity. Qed.

Lemma tokValue_s : tokValue s = Ok (Some v, s).
Proof. reflexivity. Qed.

Ltac run :=
  repeat first [ rewrite tokType_s | rewrite tokValue_s | rewrite next_to_end
               | progress cbv beta iota ].

Lemma parseNumber_token (m : Methods) :
  ty = "integer" \/ ty = "decimal" ->
  parseNumber (step m) s = Ok (node (ConstantNode (Some v) (Some ty)), s_end).
Proof.
  intros Hty. cbn [step parseNumber]. unfold parseNumber_body, isNumber, bind, ret. run.
  replace (seq (Some ty) "decimal" || seq (Some ty) "integer") with true
    by (destruct Hty as [-> | ->]; reflexivity).
  run. reflexivity.
Qed.

Lemma parseMap_passes (m : Methods) (r : Value * Parser.t) :
  String.eqb ty "{" = false -> parseNumber m s = Ok r -> parseMap (step m) s = Ok r.
Proof.
  intros Hty H. cbn [step parseMap]. unfold parseMap_body, bind. run.
  cbn [seq]. rewrite Hty. exact H.
Qed.

Lemma parseArray_passes (m : Methods) (r : Value * Parser.t) :
  String.eqb ty "[" = false -> parseMap m s = Ok r -> parseArray (step m) s = Ok r.
Proof.
  intros Hty H. cbn [step parseArray]. unfold parseArray_body, bind. run.
  cbn [seq]. rewrite Hty. exact H.
Qed.

Lemma parseString_passes (m : Methods) (r : Value * Parser.t) :
  String.eqb ty "string" = false -> parseArray m s = Ok r -> parseString (step m) s = Ok r.
Proof.
  intros Hty H. cbn [step parseString]. unfold parseString_body, bind. run.
  cbn [seq]. rewrite Hty. exact H.
Qed.

Lemma parseString_token (m : Methods) :
  ty = "string" ->
  parseString (step m) s = Ok (node (ConstantNode (Some v) (Some ty)), s_end).
Proof.
  intros Hty. cbn [step parseString]. unfold parseString_body, bind, ret. run.
  replace (seq (Some ty) "string") with true by (rewrite Hty; reflexivity).
  run. reflexivity.
Qed.

Lemma parseSymbolOrConstant_passes (m : Methods) (r : Value * Parser.t) :
  includes ["null"; "true"; "false"] ty = false ->
  String.eqb ty "identifier" = false ->
  parseString m s = Ok r -> parseSymbolOrConstant (step m) s = Ok r.
Proof.
  intros Hc Hty H. cbn [step parseSymbolOrConstant].
  unfold parseSymbolOrConstant_body, isConstant, bind, ret. run.
  cbn [seq includes_opt]. rewrite Hc. run. cbn [seq]. rewrite Hty. exact H.
Qed.

Lemma parseSymbolOrConstant_identifier (m : Methods) :
  ty = "identifier" ->
  parseSymbolOrConstant (step (step m)) s = Ok (node (SymbolNode (Some v)), s_end).
Proof.
  intros Hty. cbn [step parseSymbolOrConstant].
  unfold parseSymbolOrConstant_body, isConstant, bind, ret. run.
  replace (includes_opt ["null"; "true"; "false"] (Some ty)) with false
    by (rewrite Hty; reflexivity).
  run. replace (seq (Some ty) "identifier") with true by (rewrite Hty; reflexivity).
  run. reflexivity.
Qed.

(** The levels above [parseSymbolOrConstant] hand its result on when the
    token after it is EndOfInput. *)
Lemma parseMultiplyDivide_at_end (m : Methods) (nd : Value) :
  parseSymbolOrConstant (step m) s = Ok (nd, s_end) ->
  parseMultiplyDivide (step (step m)) s = Ok (nd, s_end).
Proof.
  intros H. cbn [step parseMultiplyDivide]. unfold parseMultiplyDivide_body, bind.
  change (parseSymbolOrConstant_body m) with (parseSymbolOrConstant (step m)).
  rewrite H. reflexivity.
Qed.

Lemma parseAddSubtract_at_end (m : Methods) (nd : Value) :
  parseMultiplyDivide (step m) s = Ok (nd, s_end) ->
  parseAddSubtract (step (step m)) s = Ok (nd, s_end).
Proof.
  intros H. cbn [step parseAddSubtract]. unfold parseAddSubtract_body, bind.
  change (parseMultiplyDivide_body m) with (parseMultiplyDivide (step m)).
  rewrite H. reflexivity.
Qed.

Lemma parseRelational_at_end (m : Methods) (nd : Value) :
  parseAddSubtract (step m) s = Ok (nd, s_end) ->
  parseRelational (step (step m)) s = Ok (nd, s_end).
Proof.
  intros H. cbn [step parseRelational]. unfold parseRelational_body, bind.
  change (parseAddSubtract_body m) with (parseAddSubtract (step m)).
  rewrite H. reflexivity.
Qed.

Lemma parseConditional_at_end (m : Methods) (nd : Value) :
  parseRelational (step m) s = Ok (nd, s_end) ->
  parseConditional (step (step m)) s = Ok (nd, s_end).
Proof.
  intros H. cbn [step parseConditional]. unfold parseConditional_body, bind.
  change (parseRelational_body m) with (parseRelational (step m)).
  rewrite H. reflexivity.
Qed.

Lemma parseWhileLoop_at_end (m : Methods) (nd : Value) :
  parseConditional (step m) s = Ok (nd, s_end) ->
  parseWhileLoop (step (step m)) s = Ok (nd, s_end).
Proof.
  intros H. cbn [step parseWhileLoop]. unfold parseWhileLoop_body, bind.
  change (parseConditional_body m) with (parseConditional (step m)).
  rewrite H. reflexivity.
Qed.

Lemma parseAssignment_at_end (m : Methods) (nd : Value) :
  parseWhileLoop (step m) s = Ok (nd, s_end) ->
  parseAssignment (step (step m)) s = Ok (nd, s_end).
Proof.
  intros H. cbn [step parseAssignment]. unfold parseAssignment_body, bind.
  change (parseWhileLoop_body m) with (parseWhileLoop (step m)).
  rewrite H. reflexivity.
Qed.

Lemma parseBlock_at_end (m : Methods) (nd : Value) :
  startsStatement (Some v) = true ->
  parseAssignment (step m) s = Ok (nd, s_end) ->
  parseBlock (step (step m)) s = Ok (nd, s_end).
Proof.
  intros Hstart H. cbn [step parseBlock]. unfold parseBlock_body, bind. run.
  rewrite Hstart.
  change (parseAssignment_body m) with (parseAssignment (step m)).
  rewrite H. reflexivity.
Qed.

(** From the result of [parseSymbolOrConstant] to the result of
    [parseBlock]. *)
Lemma parseBlock_atom (m : Methods) (nd : Value) :
  startsStatement (Some v) = true ->
  parseSymbolOrConstant (step m) s = Ok (nd, s_end) ->
  parseBlock (step (step (step (step (step (step (step (step m)))))))) s = Ok (nd, s_end).
Proof.
  intros Hstart H.
  apply (parseBlock_at_end _ _ Hstart), parseAssignment_at_end, parseWhileLoop_at_end,
    parseConditional_at_end, parseRelational_at_end, parseAddSubtract_at_end,
    parseMultiplyDivide_at_end, H.
Qed.

Lemma parse_number (fuel : nat) :
  12 <= fuel -> ty = "integer" \/ ty = "decimal" ->
  startsStatement (Some v) = true ->
  parse fuel s = Ok (node (ConstantNode (Some v) (Some ty)), s_end).
Proof.
  intros Hfuel Hty Hstart. apply (parse_mono 12 fuel _ _ Hfuel).
  unfold parse. cbn [methods].
  apply (parseBlock_atom _ _ Hstart).
  apply parseSymbolOrConstant_passes; [destruct Hty as [-> | ->]; reflexivity .. |].
  apply parseString_passes; [destruct Hty as [-> | ->]; reflexivity |].
  apply parseArray_passes; [destruct Hty as [-> | ->]; reflexivity |].
  apply parseMap_passes; [destruct Hty as [-> | ->]; reflexivity |].
  apply parseNumber_token. exact Hty.
Qed.

Lemma parse_string (fuel : nat) :
  9 <= fuel -> ty = "string" ->
  startsStatement (Some v) = true ->
  parse fuel s = Ok (node (ConstantNode (Some v) (Some ty)), s_end).
Proof.
  intros Hfuel Hty Hstart. apply (parse_mono 9 fuel _ _ Hfuel).
  unfold parse. cbn [methods].
  apply (parseBlock_atom _ _ Hstart).
  apply parseSymbolOrConstant_passes; [rewrite Hty; reflexivity .. |].
  apply parseString_token. exact Hty.
Qed.

Lemma parse_identifier (fuel : nat) :
  9 <= fuel -> ty = "identifier" ->
  startsStatement (Some v) = true ->
  parse fuel s = Ok (node (SymbolNode (Some v)), s_end).
Proof.
  intros Hfuel Hty Hstart. apply (parse_mono 9 fuel _ _ Hfuel).
  unfold parse. cbn [methods].
  apply (parseBlock_atom _ _ Hstart).
  apply parseSymbolOrConstant_identifier. exact Hty.
Qed.

End OneToken.

End Atoms.

(** ** Whole inputs *)

Module Inputs.
Import Lexer CharUtils Lexemes NumberLexing Scanning Scanning2 Numbers Digits Tokens Tokens2 Lexes Progress.
Import Parser FuelOrder Fuel Atoms.

Local Abbreviation chr c := (String c EmptyString) (only parsing).

Lemma startsStatement_first (c : ascii) (r : string) :
  Ascii.eqb c "010" = false -> Ascii.eqb c ";" = false ->
  startsStatement (Some (String c r)) = true.
Proof.
  intros H1 H2. unfold startsStatement, newline. cbn [seq String.eqb].
  rewrite H1, H2. reflexivity.
Qed.

Lemma number_start_statement (c : ascii) (r : string) :
  isValidPartOfNumber (chr c) = true -> startsStatement (Some (String c r)) = true.
Proof.
  intros H. apply startsStatement_first;
    destruct c as [[] [] [] [] [] [] [] []]; vm_compute in H; try discriminate H; reflexivity.
Qed.

Lemma letter_start_statement (c : ascii) (r : string) :
  isLetterOrUnderscore (chr c) = true -> startsStatement (Some (String c r)) = true.
Proof.
  intros H. apply startsStatement_first;
    destruct c as [[] [] [] [] [] [] [] []]; vm_compute in H; try discriminate H; reflexivity.
Qed.

(** [new Parser(input).parse()] when the whole input is one token. *)
Lemma parseInput_one_token (inp ty : string) (fuel : nat) (nd : Value) :
  startsStatement (Some inp) = true ->
  Lexer.nextToken (Lexer.new inp) =
    Ok (Tok (newToken ty inp 0 0), advance (String.length inp) (Lexer.new inp)) ->
  (forall lx lx' l c,
      Lexer.nextToken lx = Ok (endToken, lx') ->
      exists s', parse fuel (Parser.mk lx (Tok (mkToken (Some ty) (Some inp) l c))) = Ok (nd, s')) ->
  parseInput fuel inp = Ok nd.
Proof.
  intros Hstart Htok Hparse. unfold parseInput, Parser.new, next. cbn [lexer].
  rewrite Htok.
  destruct (Hparse (advance (String.length inp) (Lexer.new inp))
                   (advance (String.length inp) (Lexer.new inp)) (Some 0) (Some 0))
    as (s' & E).
  { apply nextToken_at_end. simpl. lia. }
  unfold newToken. rewrite E. reflexivity.
Qed.

Lemma parseInput_integer (ds : string) (fuel : nat) :
  is_digits ds = true -> 12 <= fuel ->
  parseInput fuel ds = Ok (node (ConstantNode (Some ds) (Some "integer"))).
Proof.
  intros Hds Hfuel.
  assert (Hstart : startsStatement (Some ds) = true).
  { destruct ds as [| c r]; [discriminate Hds |].
    cbn [is_digits all_digits] in Hds. apply andb_prop in Hds. destruct Hds as [Hc _].
    apply number_start_statement, digit_is_number_start, Hc. }
  apply (parseInput_one_token ds "integer" fuel _ Hstart).
  - apply (nextToken_integer (Lexer.new ds) ds EmptyString); try reflexivity; try exact Hds.
    simpl. rewrite substringFrom_0, append_nil_r. reflexivity.
  - intros lx lx' l c Hend. eexists.
    apply (parse_number lx lx' "integer" ds l c Hend fuel Hfuel); [left; reflexivity | exact Hstart].
Qed.

Lemma parseInput_decimal (ds1 ds2 : string) (fuel : nat) :
  all_digits ds1 = true -> is_digits ds2 = true -> 12 <= fuel ->
  parseInput fuel (ds1 ++ "." ++ ds2) =
  Ok (node (ConstantNode (Some (ds1 ++ "." ++ ds2)) (Some "decimal"))).
Proof.
  intros H1 H2 Hfuel.
  assert (Hstart : startsStatement (Some (ds1 ++ "." ++ ds2)) = true).
  { destruct ds1 as [| c r].
    - apply number_start_statement. reflexivity.
    - cbn [all_digits] in H1. apply andb_prop in H1. destruct H1 as [Hc _].
      apply number_start_statement, digit_is_number_start, Hc. }
  apply (parseInput_one_token _ "decimal" fuel _ Hstart).
  - apply (nextToken_fraction (Lexer.new (ds1 ++ "." ++ ds2)) ds1 ds2 EmptyString);
      try reflexivity; try assumption.
    simpl. rewrite substringFrom_0, append_nil_r. reflexivity.
  - intros lx lx' l c Hend. eexists.
    apply (parse_number lx lx' "decimal" _ l c Hend fuel Hfuel); [right; reflexivity | exact Hstart].
Qed.

Lemma parseInput_string (body : string) (fuel : nat) :
  all_chars notQuote body = true -> 9 <= fuel ->
  parseInput fuel (quote ++ body ++ quote) =
  Ok (node (ConstantNode (Some (quote ++ body ++ quote)) (Some "string"))).
Proof.
  intros Hbody Hfuel.
  assert (Hstart : startsStatement (Some (quote ++ body ++ quote)) = true)
    by (apply startsStatement_first; reflexivity).
  apply (parseInput_one_token _ "string" fuel _ Hstart).
  - apply (nextToken_string_closed (Lexer.new (quote ++ body ++ quote)) body EmptyString);
      [| exact Hbody].
    simpl. rewrite substringFrom_0. reflexivity.
  - intros lx lx' l c Hend. eexists.
    apply (parse_string lx lx' "string" _ l c Hend fuel Hfuel); [reflexivity | exact Hstart].
Qed.

Lemma parseInput_identifier (c : ascii) (w : string) (fuel : nat) :
  isLetterOrUnderscore (chr c) = true ->
  all_chars isIdentifierPart w = true ->
  includes keywords (String c w) = false ->
  9 <= fuel ->
  parseInput fuel (String c w) = Ok (node (SymbolNode (Some (String c w)))).
Proof.
  intros Hc Hw Hkey Hfuel.
  assert (Hstart := letter_start_statement c w Hc).
  apply (parseInput_one_token _ "identifier" fuel _ Hstart).
  - rewrite (nextToken_identifier (Lexer.new (String c w)) c w EmptyString);
      try assumption; try reflexivity.
    + rewrite Hkey. reflexivity.
    + simpl. rewrite substringFrom_0, append_nil_r. reflexivity.
  - intros lx lx' l c0 Hend. eexists.
    apply (parse_identifier lx lx' "identifier" _ l c0 Hend fuel Hfuel); [reflexivity | exact Hstart].
Qed.

(** An identifier followed by a dot: [parse()] never returns. *)
Lemma parseInput_identifier_dot (c : ascii) (w rest : string) (fuel : nat) :
  isLetterOrUnderscore (chr c) = true ->
  all_chars isIdentifierPart w = true ->
  includes keywords (String c w) = false ->
  startsWithDigit rest = false ->
  parseInput fuel (String c w ++ "." ++ rest) = OutOfFuel.
Proof.
  intros Hc Hw Hkey Hrest.
  set (inp := String c w ++ "." ++ rest).
  assert (Hsuf : substringFrom (position (Lexer.new inp)) (input (Lexer.new inp)) =
                 String c w ++ "." ++ rest) by apply substringFrom_0.
  assert (H1 := nextToken_identifier (Lexer.new inp) c w ("." ++ rest) Hsuf Hc Hw eq_refl).
  rewrite Hkey in H1.
  assert (H2 := nextToken_lone_dot (advance (String.length (String c w)) (Lexer.new inp)) rest Hrest
                  (suffix_append _ _ _ _ Hsuf)).
  unfold parseInput, Parser.new, next. cbn [lexer]. rewrite H1.
  rewrite DotAccessor.parse_spins
    with (s' := Parser.mk (advance 1 (advance (String.length (String c w)) (Lexer.new inp)))
                    (Tok (newToken TokenType.Dot "."
                            (line (advance (String.length (String c w)) (Lexer.new inp)))
                            (column (advance (String.length (String c w)) (Lexer.new inp))))))
         (tk := newToken TokenType.Identifier (String c w) 0 0).
  - reflexivity.
  - reflexivity.
  - reflexivity.
  - unfold next. cbn [lexer]. rewrite H2. reflexivity.
  - reflexivity.
  - apply letter_start_statement. exact Hc.
Qed.

(** *** symbolArgs *)

Lemma call_isSymbolNode (n : AstNode) :
  Predicates.call (node n) Predicates.isSymbolNode =
  Ok (match n with SymbolNode _ => true | _ => false end).
Proof. destruct n; reflexivity. Qed.

Lemma symbolArgs_valid (args : list Value) :
  forall names,
    symbolArgs args = Ok (true, names) <->
    args = map (fun name => node (SymbolNode name)) names.
Proof.
  induction args as [| arg args IH]; intros names.
  - simpl. split.
    + intros H. injection H as <-. reflexivity.
    + intros H. destruct names; [reflexivity | discriminate H].
  - cbn [symbolArgs]. destruct arg as [| | n].
    + split; [discriminate |]. destruct names; discriminate.
    + split; [discriminate |]. destruct names; discriminate.
    + rewrite call_isSymbolNode.
      destruct (symbolArgs args) as [[valid ns] | e |] eqn:E.
      * destruct n; try (split; [intros H; discriminate H |
                                 destruct names; intros H; discriminate H]).
        cbn [nameOf]. split.
        -- intros H. injection H as -> <-. simpl. f_equal. apply IH. reflexivity.
        -- destruct names as [| nm names]; [discriminate |].
           simpl. intros H. injection H as -> ->.
           assert (E' := proj2 (IH names) eq_refl). injection E' as -> ->. reflexivity.
      * split; [discriminate |].
        destruct names as [| nm names]; [discriminate |]. simpl. intros H. injection H as _ ->.
        assert (E' := proj2 (IH names) eq_refl). discriminate E'.
      * split; [discriminate |].
        destruct names as [| nm names]; [discriminate |]. simpl. intros H. injection H as _ ->.
        assert (E' := proj2 (IH names) eq_refl). discriminate E'.
Qed.

End Inputs.

(** ** Token values, tokenize and discardNewlines *)

Module Rest.
Import Lexer CharUtils Lexemes NumberLexing Scanning Scanning2 Numbers Digits Tokens Tokens2 Lexes Progress.
Import Parser ParserRest.

Local Abbreviation chr c := (String c EmptyString) (only parsing).


Lemma recognizeBooleanOperator_value (lx : Lexer.t) :
  valueOf (fst (recognizeBooleanOperator lx)) <> Some EmptyString.
Proof.
  unfold recognizeBooleanOperator.
  repeat match goal with
         | |- context [if ?b then _ else _] => destruct b
         end; discriminate.
Qed.

Lemma nextToken_value (lx lx' : Lexer.t) (tv : TokenVal) :
  nextToken lx = Ok (tv, lx') -> valueOf tv <> Some EmptyString.
Proof.
  intros H.
  destruct (Nat.le_gt_cases (String.length (input lx)) (position lx)) as [Hge | Hlt].
  - rewrite nextToken_at_end in H by exact Hge. injection H as <- _. discriminate.
  - rewrite nextToken_dispatch in H by exact Hlt.
    set (lx1 := skipWhitespaces lx) in *.
    destruct (isBooleanOperator (charAt (input lx1) (position lx1))) eqn:Hb.
    + assert (Hr : (tv, lx') = recognizeBooleanOperator lx1).
      { pose proof Hb as Hb'. apply includes_In in Hb'. unfold dispatch in H.
        destruct Hb' as [E | [E | [E | []]]]; rewrite <- E in H; simpl in H;
          injection H as H; rewrite <- H; unfold recognizeOperator; rewrite <- E; reflexivity. }
      change tv with (fst (tv, lx')). rewrite Hr. apply recognizeBooleanOperator_value.
    + destruct (dispatch_lexes lx1 _ Hb H) as (tk & v & Hf & Hv & Hne & _).
      simpl in Hf. rewrite Hf. simpl. rewrite Hv. congruence.
Qed.

(** *** tokenize never delivers EndOfInput *)


Lemma tokenize_loop_no_end (fuel : nat) :
  forall token lx tokens toks,
    Forall notEnd tokens ->
    tokenize_loop fuel token lx tokens = Ok toks -> Forall notEnd toks.
Proof.
  induction fuel as [| fuel IH]; intros token lx tokens toks Hall H; [discriminate H |].
  cbn [tokenize_loop] in H.
  destruct (typeOf token) as [ty | e |] eqn:Et; try discriminate H.
  destruct (seq ty TokenType.EndOfInput) eqn:Es.
  - injection H as <-. exact Hall.
  - destruct (nextToken lx) as [[token' lx'] | e |]; try discriminate H.
    apply IH in H; [exact H |].
    apply Forall_app. split; [exact Hall |]. constructor; [| constructor].
    destruct token as [tk | msg |]; simpl; [| exact I | exact I].
    simpl in Et. injection Et as <-. intros E. rewrite E in Es. discriminate Es.
Qed.

Lemma tokenize_no_end (fuel : nat) (lx : Lexer.t) (toks : list TokenVal) :
  tokenize fuel lx = Ok toks -> Forall notEnd toks.
Proof.
  unfold tokenize. destruct (nextToken lx) as [[token lx'] | e |]; try discriminate.
  apply tokenize_loop_no_end. constructor.
Qed.

(** *** discardNewlines *)

Lemma discardNewlines_ends (n : nat) :
  forall fuel s,
    currentToken s <> UndefinedToken ->
    String.length (input (lexer s)) - position (lexer s) <= n -> n + 2 <= fuel ->
    (exists s' ty, discardNewlines fuel s = Ok (tt, s')
                   /\ tokType s' = Ok (ty, s') /\ seq ty newline = false)
    \/ discardNewlines fuel s = Throw (Error unrecognized).
Proof.
  induction n as [| n IH]; intros fuel s Hdef Hn Hfuel;
    (destruct fuel as [| fuel]; [lia |]); cbn [discardNewlines]; unfold bind.
  - destruct (tokType s) as [[ty s0] | e |] eqn:Et;
      [| unfold tokType in Et; destruct (currentToken s); try discriminate Et; contradiction
       | unfold tokType in Et; destruct (currentToken s); discriminate Et].
    assert (s0 = s) by (unfold tokType in Et; destruct (currentToken s); congruence). subst s0.
    destruct (seq ty newline) eqn:Es.
    + unfold next. rewrite nextToken_at_end by lia.
      destruct fuel as [| fuel]; [lia |]. left.
      exists (Parser.mk (lexer s) endToken), (Some TokenType.EndOfInput).
      repeat split.
    + left. exists s, ty. repeat split; assumption.
  - destruct (tokType s) as [[ty s0] | e |] eqn:Et;
      [| unfold tokType in Et; destruct (currentToken s); try discriminate Et; contradiction
       | unfold tokType in Et; destruct (currentToken s); discriminate Et].
    assert (s0 = s) by (unfold tokType in Et; destruct (currentToken s); congruence). subst s0.
    destruct (seq ty newline) eqn:Es; [| left; exists s, ty; repeat split; assumption].
    unfold next.
    destruct (Nat.le_gt_cases (String.length (input (lexer s))) (position (lexer s)))
      as [Hge | Hlt].
    + rewrite nextToken_at_end by exact Hge.
      destruct fuel as [| fuel]; [lia |]. left.
      exists (Parser.mk (lexer s) endToken), (Some TokenType.EndOfInput).
      repeat split.
    + destruct (nextToken (lexer s)) as [[tv lx'] | e |] eqn:E.
      * destruct (nextToken_moves _ _ _ Hlt E) as (Hi & Hp & Hd).
        apply IH; simpl; [exact Hd | rewrite Hi; lia | lia].
      * right. rewrite (nextToken_throws _ e E). reflexivity.
      * exfalso. exact (nextToken_fuel _ E).
Qed.

End Rest.

(** ** A token that begins no expression *)

Module NoOperand.
Import Parser.

Section NoExpressionHere.

(** The current token begins no primary expression. *)
Variables (s : Parser.t) (tk : Token).
Hypothesis Hcur : currentToken s = Tok tk.
Hypothesis Hconst : includes_opt ["null"; "true"; "false"] (type tk) = false.
Hypothesis Hident : seq (type tk) "identifier" = false.
Hypothesis Hstring : seq (type tk) "string" = false.
Hypothesis Harray : seq (type tk) "[" = false.
Hypothesis Hmap : seq (type tk) "{" = false.
Hypothesis Hdecimal : seq (type tk) "decimal" = false.
Hypothesis Hinteger : seq (type tk) "integer" = false.
Hypothesis Hparen : seq (value tk) "(" = false.

Lemma tokType_cur : tokType s = Ok (type tk, s).
Proof. unfold tokType. rewrite Hcur. reflexivity. Qed.

Lemma tokValue_cur : tokValue s = Ok (value tk, s).
Proof. unfold tokValue. rewrite Hcur. reflexivity. Qed.

Ltac read :=
  repeat first [ rewrite tokType_cur | rewrite tokValue_cur | progress cbv beta iota ].

Lemma parseParentheses_nothing (m : Methods) :
  parseParentheses (step m) s = Ok (undefined, s).
Proof.
  cbn [step parseParentheses]. unfold parseParentheses_body, bind. read.
  rewrite Hparen. reflexivity.
Qed.

Lemma parseNumber_nothing (m : Methods) :
  parseNumber (step (step m)) s = Ok (undefined, s).
Proof.
  cbn [step parseNumber]. unfold parseNumber_body, isNumber, bind, ret. read.
  rewrite Hdecimal, Hinteger. cbn [orb]. read.
  apply parseParentheses_nothing.
Qed.

Lemma parseMap_nothing (m : Methods) :
  parseMap (step (step (step m))) s = Ok (undefined, s).
Proof.
  cbn [step parseMap]. unfold parseMap_body, bind. read.
  rewrite Hmap. apply parseNumber_nothing.
Qed.

Lemma parseArray_nothing (m : Methods) :
  parseArray (step (step (step (step m)))) s = Ok (undefined, s).
Proof.
  cbn [step parseArray]. unfold parseArray_body, bind. read.
  rewrite Harray. apply parseMap_nothing.
Qed.

Lemma parseString_nothing (m : Methods) :
  parseString (step (step (step (step (step m))))) s = Ok (undefined, s).
Proof.
  cbn [step parseString]. unfold parseString_body, bind. read.
  rewrite Hstring. apply parseArray_nothing.
Qed.

Lemma parseSymbolOrConstant_nothing (m : Methods) :
  parseSymbolOrConstant (step (step (step (step (step (step m)))))) s = Ok (undefined, s).
Proof.
  cbn [step parseSymbolOrConstant].
  unfold parseSymbolOrConstant_body, isConstant, bind, ret. read.
  rewrite Hconst. read. rewrite Hident. apply parseString_nothing.
Qed.

End NoExpressionHere.

Lemma parseSymbolOrConstant_nothing_fuel (fuel : nat) (s : Parser.t) (tk : Token) :
  6 <= fuel ->
  currentToken s = Tok tk ->
  includes_opt ["null"; "true"; "false"; "identifier"; "string"; "["; "{"; "decimal"; "integer"]
               (type tk) = false ->
  seq (value tk) "(" = false ->
  parseSymbolOrConstant (methods fuel) s = Ok (undefined, s).
Proof.
  intros Hfuel Hcur Hty Hparen.
  assert (H : forall x, In x ["null"; "true"; "false"; "identifier"; "string"; "["; "{";
                              "decimal"; "integer"] -> seq (type tk) x = false).
  { intros x Hx. destruct (type tk) as [ty |]; [| reflexivity]. cbn [seq].
    destruct (String.eqb_spec ty x) as [-> | Hne]; [| reflexivity].
    cbn [includes_opt] in Hty. unfold includes in Hty.
    rewrite (proj2 (existsb_exists _ _)) in Hty; [discriminate Hty |].
    exists x. split; [exact Hx | apply String.eqb_refl]. }
  assert (Hconst : includes_opt ["null"; "true"; "false"] (type tk) = false).
  { assert (H1 := H "null"). assert (H2 := H "true"). assert (H3 := H "false").
    destruct (type tk) as [ty |]; [| reflexivity].
    cbn [seq] in H1, H2, H3. cbn [includes_opt]. unfold includes. cbn [existsb].
    rewrite H1, H2, H3 by (simpl; tauto). reflexivity. }
  do 6 (destruct fuel as [| fuel]; [lia |]). cbn [methods].
  apply (parseSymbolOrConstant_nothing s tk Hcur Hconst);
    first [exact Hparen | apply H; simpl; tauto].
Qed.

End NoOperand.

(* ================================================================== *)
(** ** The claims                                                       *)
(* ================================================================== *)


(** C1. The claim is that [Parser.parse()] terminates on every input, and
    in particular on a dot-accessor chain such as "a.b".  The code does not:
    on the input "a.b" the parser returns nothing and throws nothing, whatever
    the fuel; the loop of [parseAccessors] spins on the dot. *)
Theorem C1_parse_dot_chain_never_returns :
  forall fuel : nat, Parser.parseInput fuel "a.b" = OutOfFuel.
Proof.
  intros fuel. unfold Parser.parseInput.
  destruct (Parser.new "a.b") as [s | e | ] eqn:E; vm_compute in E; try discriminate.
  injection E as <-.
  rewrite DotAccessor.parse_spins
    with (tk := newToken "identifier" "a" 0 0)
         (s' := Parser.mk (Lexer.mk "a.b" 2 0 2) (Tok (newToken "." "." 0 1)));
    reflexivity.
Qed.

(** C2. The claim is that parsing "a =" raises a SyntaxError and never
    returns a partially built AssignmentNode.  The code returns one: with
    enough fuel, [parse()] on "a =" returns the AssignmentNode of the symbol
    [a] whose value is [undefined], because [parseParentheses] falls off its
    end at the end of the input. *)
Theorem C2_parse_assignment_without_value :
  forall fuel : nat, 20 <= fuel ->
    Parser.parseInput fuel "a =" =
    Ok (node (AssignmentNode (node (SymbolNode (Some "a"))) undefined false)).
Proof.
  intros fuel Hfuel.
  apply (Fuel.parseInput_mono (f := 20)); [exact Hfuel | vm_compute; reflexivity | discriminate].
Qed.

Lemma C2_parse_assignment_without_value_witness :
  20 <= 25 /\
  Parser.parseInput 25 "a =" =
  Ok (node (AssignmentNode (node (SymbolNode (Some "a"))) undefined false)).
Proof.
  split; [lia | apply (C2_parse_assignment_without_value 25); lia].
Defined.

(** C4. The claim is that parsing node.add(42).push("Hello") yields the
    FunctionCallNode of [push] on the FunctionCallNode of [add] on the symbol
    [node].  The code yields nothing: the parser reads the symbol [node],
    meets the dot and spins in [parseAccessors], whatever the fuel. *)
Theorem C4_parse_chained_calls_never_returns :
  forall fuel : nat, Parser.parseInput fuel chained_calls = OutOfFuel.
Proof.
  intros fuel. unfold Parser.parseInput.
  destruct (Parser.new chained_calls) as [s | e | ] eqn:E; vm_compute in E; try discriminate.
  injection E as <-.
  rewrite DotAccessor.parse_spins
    with (tk := newToken "identifier" "node" 0 0)
         (s' := Parser.mk (Lexer.mk chained_calls 5 0 5) (Tok (newToken "." "." 0 4)));
    reflexivity.
Qed.

(** C7. Parsing "1 + 3 * 5 - 8" yields the OperatorNode [-] whose left
    child is the OperatorNode [+] of the literal 1 and the OperatorNode [*] of
    3 and 5, and whose right child is the literal 8; parsing "7 - 4 + 2"
    yields the OperatorNode [+] of the OperatorNode [-] of 7 and 4 and the
    literal 2.  Any fuel from 40 on gives these results. *)
Theorem C7_precedence_and_left_associativity :
  forall fuel : nat, 40 <= fuel ->
    let lit v := node (ConstantNode (Some v) (Some "integer")) in
    let op o l r := node (OperatorNode (Some o) (Some o) l r) in
    Parser.parseInput fuel "1 + 3 * 5 - 8" =
      Ok (op "-" (op "+" (lit "1") (op "*" (lit "3") (lit "5"))) (lit "8"))
    /\ Parser.parseInput fuel "7 - 4 + 2" =
      Ok (op "+" (op "-" (lit "7") (lit "4")) (lit "2")).
Proof.
  intros fuel Hfuel lit op. split;
    (apply (Fuel.parseInput_mono (f := 40));
     [exact Hfuel | vm_compute; reflexivity | discriminate]).
Qed.

Lemma C7_precedence_and_left_associativity_witness :
  40 <= 40 /\
  Parser.parseInput 40 "1 + 3 * 5 - 8" =
    Ok (node (OperatorNode (Some "-") (Some "-")
          (node (OperatorNode (Some "+") (Some "+")
             (node (ConstantNode (Some "1") (Some "integer")))
             (node (OperatorNode (Some "*") (Some "*")
                (node (ConstantNode (Some "3") (Some "integer")))
                (node (ConstantNode (Some "5") (Some "integer")))))))
          (node (ConstantNode (Some "8") (Some "integer"))))).
Proof.
  split; [lia | apply (C7_precedence_and_left_associativity 40); lia].
Defined.


(** C3. The claim is that a [&] not followed by [&], or a [|] not followed
    by [|], makes the lexer raise an error before it produces a token for the
    character.  The code does not: [recognizeBooleanOperator] turns a [|]
    followed by any character into the Or token and consumes both characters;
    for a lone [&] it builds the Error object and returns it where a token is
    expected, without throwing, so [tokenize] carries on and delivers it among
    the tokens. *)
Theorem C3_lone_boolean_operator_raises_nothing :
  Lexer.nextToken (Lexer.new "|a") =
    Ok (Tok (newToken TokenType.Or "||" 0 0), Lexer.mk "|a" 2 0 2)
  /\ Lexer.nextToken (Lexer.new "&") =
    Ok (ErrorObject Lexer.unrecognized, Lexer.mk "&" 1 0 1)
  /\ Lexer.tokenize 10 (Lexer.new "a & b") =
    Ok [ Tok (newToken TokenType.Identifier "a" 0 0);
         ErrorObject Lexer.unrecognized;
         Tok (newToken TokenType.Identifier "b" 0 4) ].
Proof. repeat split; vm_compute; reflexivity. Qed.

(** C5. Where the rest of the input is a digit sequence [ds], a dot and no
    digit after it, [nextToken] yields the Integer token whose value is [ds]
    and the call after it yields the Dot token of the dot: no Decimal token.
    And the input made of a digit sequence, a dot and a digit sequence is
    tokenized into exactly one Decimal token, on any fuel from 2 on. *)
Theorem C5_integer_then_dot_and_single_decimal
  (lx : Lexer.t) (ds rest ds1 ds2 : string) (fuel : nat) :
  Digits.is_digits ds = true ->
  Digits.startsWithDigit rest = false ->
  substringFrom (Lexer.position lx) (Lexer.input lx) = ds ++ "." ++ rest ->
  Digits.is_digits ds1 = true ->
  Digits.is_digits ds2 = true ->
  let lx1 := Lexer.advance (String.length ds) lx in
  Lexer.nextToken lx =
    Ok (Tok (newToken TokenType.Integer ds (Lexer.line lx) (Lexer.column lx)), lx1)
  /\ Lexer.nextToken lx1 =
    Ok (Tok (newToken TokenType.Dot "." (Lexer.line lx)
                      (Lexer.column lx + String.length ds)),
        Lexer.advance 1 lx1)
  /\ Lexer.tokenize (2 + fuel) (Lexer.new (ds1 ++ "." ++ ds2)) =
    Ok [Tok (newToken TokenType.Decimal (ds1 ++ "." ++ ds2) 0 0)].
Proof.
  intros Hds Hrest Hsuf H1 H2 lx1. repeat split.
  - exact (NumberLexing.nextToken_integer_before_dot lx ds rest Hds Hrest Hsuf).
  - apply (NumberLexing.nextToken_lone_dot lx1 rest Hrest).
    exact (NumberLexing.suffix_append ds (Lexer.input lx) ("." ++ rest)
             (Lexer.position lx) Hsuf).
  - exact (NumberLexing.tokenize_decimal ds1 ds2 fuel H1 H2).
Qed.

Lemma C5_integer_then_dot_and_single_decimal_witness :
  let lx := Lexer.new "12.x" in
  (Digits.is_digits "12" = true /\ Digits.startsWithDigit "x" = false
   /\ substringFrom (Lexer.position lx) (Lexer.input lx) = "12" ++ "." ++ "x"
   /\ Digits.is_digits "3" = true /\ Digits.is_digits "14" = true)
  /\ Lexer.nextToken lx =
       Ok (Tok (newToken TokenType.Integer "12" 0 0), Lexer.mk "12.x" 2 0 2)
  /\ Lexer.nextToken (Lexer.mk "12.x" 2 0 2) =
       Ok (Tok (newToken TokenType.Dot "." 0 2), Lexer.mk "12.x" 3 0 3)
  /\ Lexer.tokenize 2 (Lexer.new "3.14") =
       Ok [Tok (newToken TokenType.Decimal "3.14" 0 0)].
Proof.
  split; [repeat split |].
  apply (C5_integer_then_dot_and_single_decimal
           (Lexer.new "12.x") "12" "x" "3" "14" 0); reflexivity.
Defined.

(** C6. The claim is that [nextToken] advances the cursor by exactly the
    length of the lexeme of the token it returns (and the whitespace it
    skipped).  The code does not for the boolean operators: on the input "!a"
    it returns the Not token, whose lexeme [!] has length one, and leaves the
    cursor two characters on, past the [a], which no token ever covers. *)
Theorem C6_not_operator_swallows_next_character :
  Lexer.nextToken (Lexer.new "!a") =
    Ok (Tok (newToken TokenType.Not "!" 0 0), Lexer.mk "!a" 2 0 2)
  /\ Lexer.tokenize 10 (Lexer.new "!a") = Ok [Tok (newToken TokenType.Not "!" 0 0)].
Proof. split; vm_compute; reflexivity. Qed.

(** C8. The claim is that a literal with an exponent, such as "1e5",
    ends the number recognizer in its accepting exponent state and becomes one
    numeric token.  The code does not: no transition of [nextState] leads to
    the state NumberWithExponent, because the two exponent states test
    [CharUtils.isDigit()] without the character, and [recognizeNumberOrDot]
    has no token type for that state; "1e5" is tokenized into the Integer [1]
    and the identifier [e5], "2E-3" into the Integer [2] and the identifier
    [E-3]. *)
Theorem C8_exponent_state_is_never_reached :
  (forall (q : Z) (ch : string),
      Lexer.nextState q ch <> Lexer.State.NumberWithExponent)
  /\ Lexer.tokenTypeOf Lexer.State.NumberWithExponent = None
  /\ Lexer.tokenize 10 (Lexer.new "1e5") =
    Ok [ Tok (newToken TokenType.Integer "1" 0 0);
         Tok (newToken TokenType.Identifier "e5" 0 1) ]
  /\ Lexer.tokenize 10 (Lexer.new "2E-3") =
    Ok [ Tok (newToken TokenType.Integer "2" 0 0);
         Tok (newToken TokenType.Identifier "E-3" 0 1) ].
Proof.
  split; [| repeat split; vm_compute; reflexivity].
  intros q ch. unfold Lexer.nextState, CharUtils.isDigit_noarg.
  repeat match goal with
         | |- context [if ?b then _ else _] => destruct b
         end; discriminate.
Qed.

(** C9. The claim is that on an input made of whitespace only, and on an
    input with whitespace after its last token, the final call of [nextToken]
    returns EndOfInput and raises no error.  The code does not: [nextToken]
    tests for the end of the input before it skips the whitespace, so after
    the skip it classifies the empty character and throws. *)
Theorem C9_trailing_whitespace_throws :
  Lexer.nextToken (Lexer.new " ") = Throw (Error Lexer.unrecognized)
  /\ Lexer.tokenize 10 (Lexer.new "a ") = Throw (Error Lexer.unrecognized).
Proof. split; vm_compute; reflexivity. Qed.

(** C10. The claim is that every node answers [false] to every capability
    predicate but its own, the base class AstNode answering [false] to every
    predicate.  The code does so for the ten predicates AstNode declares: the
    base class answers [false] to each of them, a SymbolNode answers [true] to
    [isSymbolNode] and [false] to the other nine, a ConditionalNode [true] to
    [isConditionalNode] and [false] to the other nine.  It does not for
    [isFunctionCallNode] and [isAccessorNode], which [parseAssignment] asks of
    the node on the left of [=]: AstNode declares neither, so a SymbolNode and
    a ConditionalNode have no such method, the call is a TypeError, and
    parsing "a if (b) c = 1" ends in that TypeError, on any fuel from 20 on,
    where the error of an invalid left hand side was to be thrown. *)
Theorem C10_base_class_lacks_two_predicates (fuel : nat) :
  20 <= fuel ->
  Forall (fun p => Predicates.AstNode_method p = Some false) declared_by_AstNode
  /\ (forall name p, In p declared_by_AstNode ->
        Predicates.answer (SymbolNode name) p =
        Some (Predicates.Predicate_eqb p Predicates.isSymbolNode))
  /\ (forall c t e p, In p declared_by_AstNode ->
        Predicates.answer (ConditionalNode c t e) p =
        Some (Predicates.Predicate_eqb p Predicates.isConditionalNode))
  /\ (forall name p, p = Predicates.isFunctionCallNode \/ p = Predicates.isAccessorNode ->
        Predicates.call (node (SymbolNode name)) p =
        Throw (TypeError (Predicates.methodName p)))
  /\ (forall c t e p, p = Predicates.isFunctionCallNode \/ p = Predicates.isAccessorNode ->
        Predicates.call (node (ConditionalNode c t e)) p =
        Throw (TypeError (Predicates.methodName p)))
  /\ Parser.parseInput fuel "a if (b) c" =
     Ok (node (ConditionalNode (node (SymbolNode (Some "b")))
                               (node (SymbolNode (Some "c"))) null))
  /\ Parser.parseInput fuel "a if (b) c = 1" = Throw (TypeError "isFunctionCallNode").
Proof.
  intros Hfuel.
  split; [repeat constructor |].
  split; [intros name p Hp; simpl in Hp; intuition (subst; reflexivity) |].
  split; [intros c t e p Hp; simpl in Hp; intuition (subst; reflexivity) |].
  split; [intros name p [-> | ->]; reflexivity |].
  split; [intros c t e p [-> | ->]; reflexivity |].
  split; (apply (Fuel.parseInput_mono (f := 20));
          [exact Hfuel | vm_compute; reflexivity | discriminate]).
Qed.

Lemma C10_base_class_lacks_two_predicates_witness :
  20 <= 20
  /\ Predicates.call (node (ConditionalNode (node (SymbolNode (Some "b")))
                                            (node (SymbolNode (Some "c"))) null))
                     Predicates.isFunctionCallNode =
     Throw (TypeError "isFunctionCallNode")
  /\ Parser.parseInput 20 "a if (b) c = 1" = Throw (TypeError "isFunctionCallNode").
Proof.
  split; [lia |].
  destruct (C10_base_class_lacks_two_predicates 20) as (_ & _ & _ & _ & Hc & _ & Hp); [lia |].
  split; [apply (Hc _ _ _ Predicates.isFunctionCallNode); left; reflexivity | exact Hp].
Defined.

(* ================================================================== *)
(** ** Further properties of the lexer                                  *)
(* ================================================================== *)

(** X1. [tokenize] ends: on any input, [input.length + 2] turns of its
    loop are enough, and the outcome is the list of tokens or the error of an
    unrecognized character, never a TypeError. *)
Theorem X1_tokenize_terminates (inp : string) (fuel : nat) :
  String.length inp + 2 <= fuel ->
  (exists toks, Lexer.tokenize fuel (Lexer.new inp) = Ok toks)
  \/ Lexer.tokenize fuel (Lexer.new inp) = Throw (Error Lexer.unrecognized).
Proof.
  intros Hfuel. apply Progress.tokenize_terminates. simpl. lia.
Qed.

Lemma X1_tokenize_terminates_witness :
  String.length "a b" + 2 <= 5
  /\ ((exists toks, Lexer.tokenize 5 (Lexer.new "a b") = Ok toks)
      \/ Lexer.tokenize 5 (Lexer.new "a b") = Throw (Error Lexer.unrecognized)).
Proof.
  split; [simpl; lia | apply (X1_tokenize_terminates "a b" 5); simpl; lia].
Defined.

(** X2. A call of [nextToken] before the end of the input that returns
    has moved the cursor forward, has left the input as it was, and hands back
    a token or the Error object, never [undefined]. *)
Theorem X2_nextToken_moves_forward (lx lx' : Lexer.t) (tv : TokenVal) :
  Lexer.position lx < String.length (Lexer.input lx) ->
  Lexer.nextToken lx = Ok (tv, lx') ->
  Lexer.input lx' = Lexer.input lx
  /\ Lexer.position lx < Lexer.position lx'
  /\ tv <> UndefinedToken.
Proof. apply Progress.nextToken_moves. Qed.

Lemma X2_nextToken_moves_forward_witness :
  let lx := Lexer.new "ab" in
  let lx' := Lexer.mk "ab" 2 0 2 in
  let tv := Tok (newToken TokenType.Identifier "ab" 0 0) in
  (Lexer.position lx < String.length (Lexer.input lx)
   /\ Lexer.nextToken lx = Ok (tv, lx'))
  /\ Lexer.input lx' = Lexer.input lx
  /\ Lexer.position lx < Lexer.position lx'
  /\ tv <> UndefinedToken.
Proof.
  split; [split; [simpl; lia | reflexivity] |].
  apply (X2_nextToken_moves_forward (Lexer.new "ab") (Lexer.mk "ab" 2 0 2)
           (Tok (newToken TokenType.Identifier "ab" 0 0))); [simpl; lia | reflexivity].
Defined.

(** X3. Unless the character after the skipped whitespace is one of [!],
    [&], [|], the token [nextToken] returns carries as its value exactly the
    text of the input between the cursor after the whitespace and the new
    cursor, and that text is not empty. *)
Theorem X3_token_value_is_the_source_text (lx lx' : Lexer.t) (tv : TokenVal) :
  Lexer.position lx < String.length (Lexer.input lx) ->
  CharUtils.isBooleanOperator
    (charAt (Lexer.input (Lexer.skipWhitespaces lx))
            (Lexer.position (Lexer.skipWhitespaces lx))) = false ->
  Lexer.nextToken lx = Ok (tv, lx') ->
  exists tk v, tv = Tok tk /\ value tk = Some v /\ v <> EmptyString
               /\ Lexemes.lexeme_of (Lexer.skipWhitespaces lx) lx' v.
Proof.
  intros Hlt Hb H. rewrite Tokens.nextToken_dispatch in H by exact Hlt.
  exact (Progress.dispatch_lexes _ _ Hb H).
Qed.

Lemma X3_token_value_is_the_source_text_witness :
  let lx := Lexer.new " 12+" in
  let lx' := Lexer.mk " 12+" 3 0 3 in
  let tv := Tok (newToken TokenType.Integer "12" 0 1) in
  (Lexer.position lx < String.length (Lexer.input lx)
   /\ CharUtils.isBooleanOperator
        (charAt (Lexer.input (Lexer.skipWhitespaces lx))
                (Lexer.position (Lexer.skipWhitespaces lx))) = false
   /\ Lexer.nextToken lx = Ok (tv, lx'))
  /\ exists tk v, tv = Tok tk /\ value tk = Some v /\ v <> EmptyString
                  /\ Lexemes.lexeme_of (Lexer.skipWhitespaces lx) lx' v.
Proof.
  split; [split; [simpl; lia | split; reflexivity] |].
  apply (X3_token_value_is_the_source_text (Lexer.new " 12+") (Lexer.mk " 12+" 3 0 3)
           (Tok (newToken TokenType.Integer "12" 0 1))); [simpl; lia | reflexivity | reflexivity].
Defined.

(** X4. Where the rest of the input is a letter or an underscore, then
    identifier characters, then a character that is not one (or the end),
    [nextToken] returns one token whose value is that whole word: its type is
    the word itself when it is one of the keywords, and [identifier]
    otherwise. *)
Theorem X4_identifier_or_keyword (lx : Lexer.t) (c : ascii) (w rest : string) :
  substringFrom (Lexer.position lx) (Lexer.input lx) = String c w ++ rest ->
  CharUtils.isLetterOrUnderscore (String c EmptyString) = true ->
  Lexemes.all_chars Lexer.isIdentifierPart w = true ->
  Lexer.isIdentifierPart (charAt rest 0) = false ->
  Lexer.nextToken lx =
  Ok (Tok (newToken (if includes Lexer.keywords (String c w) then String c w
                     else TokenType.Identifier)
                    (String c w) (Lexer.line lx) (Lexer.column lx)),
      Lexer.advance (String.length (String c w)) lx).
Proof. apply Tokens2.nextToken_identifier. Qed.

Lemma X4_identifier_or_keyword_witness :
  let lx := Lexer.new "while(" in
  (substringFrom (Lexer.position lx) (Lexer.input lx) = "while" ++ "("
   /\ CharUtils.isLetterOrUnderscore "w" = true
   /\ Lexemes.all_chars Lexer.isIdentifierPart "hile" = true
   /\ Lexer.isIdentifierPart (charAt "(" 0) = false)
  /\ Lexer.nextToken lx =
     Ok (Tok (newToken "while" "while" 0 0), Lexer.mk "while(" 5 0 5).
Proof.
  split; [repeat split |].
  apply (X4_identifier_or_keyword (Lexer.new "while(") "w"%char "hile" "("); reflexivity.
Defined.

(** X5. Where the rest of the input is a double quote, a body without
    double quotes, and a double quote, [nextToken] returns the String token
    whose value is the body with both quotes, and the cursor is just past the
    closing quote. *)
Theorem X5_string_literal (lx : Lexer.t) (body rest : string) :
  substringFrom (Lexer.position lx) (Lexer.input lx) =
    Lexemes.quote ++ body ++ Lexemes.quote ++ rest ->
  Lexemes.all_chars Lexemes.notQuote body = true ->
  Lexer.nextToken lx =
  Ok (Tok (newToken TokenType.String_ (Lexemes.quote ++ body ++ Lexemes.quote)
                    (Lexer.line lx) (Lexer.column lx)),
      Lexer.advance (String.length (Lexemes.quote ++ body ++ Lexemes.quote)) lx).
Proof. apply Tokens2.nextToken_string_closed. Qed.

Lemma X5_string_literal_witness :
  let lx := Lexer.new (Lexemes.quote ++ "hi" ++ Lexemes.quote ++ "+") in
  (substringFrom (Lexer.position lx) (Lexer.input lx) =
     Lexemes.quote ++ "hi" ++ Lexemes.quote ++ "+"
   /\ Lexemes.all_chars Lexemes.notQuote "hi" = true)
  /\ Lexer.nextToken lx =
     Ok (Tok (newToken TokenType.String_ (Lexemes.quote ++ "hi" ++ Lexemes.quote) 0 0),
         Lexer.mk (Lexemes.quote ++ "hi" ++ Lexemes.quote ++ "+") 4 0 4).
Proof.
  split; [repeat split |].
  apply (X5_string_literal (Lexer.new (Lexemes.quote ++ "hi" ++ Lexemes.quote ++ "+")) "hi" "+");
    reflexivity.
Defined.

(** X6. An unterminated string raises no error: where the rest of the
    input is a double quote and a body without double quotes, [nextToken]
    returns a String token whose value is all of it, and the cursor is at the
    end of the input. *)
Theorem X6_unterminated_string_runs_to_the_end (lx : Lexer.t) (body : string) :
  substringFrom (Lexer.position lx) (Lexer.input lx) = Lexemes.quote ++ body ->
  Lexemes.all_chars Lexemes.notQuote body = true ->
  Lexer.nextToken lx =
  Ok (Tok (newToken TokenType.String_ (Lexemes.quote ++ body)
                    (Lexer.line lx) (Lexer.column lx)),
      Lexer.advance (String.length (Lexemes.quote ++ body)) lx)
  /\ Lexer.position (Lexer.advance (String.length (Lexemes.quote ++ body)) lx) =
     String.length (Lexer.input lx).
Proof. apply Tokens2.nextToken_string_open. Qed.

Lemma X6_unterminated_string_runs_to_the_end_witness :
  let lx := Lexer.new (Lexemes.quote ++ "abc") in
  (substringFrom (Lexer.position lx) (Lexer.input lx) = Lexemes.quote ++ "abc"
   /\ Lexemes.all_chars Lexemes.notQuote "abc" = true)
  /\ Lexer.nextToken lx =
     Ok (Tok (newToken TokenType.String_ (Lexemes.quote ++ "abc") 0 0),
         Lexer.advance 4 lx)
  /\ Lexer.position (Lexer.advance 4 lx) = String.length (Lexer.input lx).
Proof.
  split; [repeat split |].
  apply (X6_unterminated_string_runs_to_the_end (Lexer.new (Lexemes.quote ++ "abc")) "abc");
    reflexivity.
Defined.

(** X7. Where the rest of the input is a digit sequence followed by
    anything but a digit or a dot (the end, a letter, an [e] of an exponent),
    [nextToken] returns the Integer token of exactly the digits. *)
Theorem X7_integer_token (lx : Lexer.t) (ds rest : string) :
  substringFrom (Lexer.position lx) (Lexer.input lx) = ds ++ rest ->
  Digits.is_digits ds = true ->
  Digits.startsWithDigit rest = false ->
  String.eqb (charAt rest 0) "." = false ->
  Lexer.nextToken lx =
  Ok (Tok (newToken TokenType.Integer ds (Lexer.line lx) (Lexer.column lx)),
      Lexer.advance (String.length ds) lx).
Proof. apply Tokens2.nextToken_integer. Qed.

Lemma X7_integer_token_witness :
  let lx := Lexer.new "12e5" in
  (substringFrom (Lexer.position lx) (Lexer.input lx) = "12" ++ "e5"
   /\ Digits.is_digits "12" = true
   /\ Digits.startsWithDigit "e5" = false
   /\ String.eqb (charAt "e5" 0) "." = false)
  /\ Lexer.nextToken lx =
     Ok (Tok (newToken TokenType.Integer "12" 0 0), Lexer.mk "12e5" 2 0 2).
Proof.
  split; [repeat split |].
  apply (X7_integer_token (Lexer.new "12e5") "12" "e5"); reflexivity.
Defined.

(** X8. Where the rest of the input is digits (possibly none), a dot, one
    digit or more, and then anything but a digit, [nextToken] returns the
    Decimal token of the text up to the last of those digits: a decimal may
    start with the dot. *)
Theorem X8_decimal_token (lx : Lexer.t) (ds1 ds2 rest : string) :
  substringFrom (Lexer.position lx) (Lexer.input lx) = ds1 ++ "." ++ ds2 ++ rest ->
  Digits.all_digits ds1 = true ->
  Digits.is_digits ds2 = true ->
  Digits.startsWithDigit rest = false ->
  Lexer.nextToken lx =
  Ok (Tok (newToken TokenType.Decimal (ds1 ++ "." ++ ds2) (Lexer.line lx) (Lexer.column lx)),
      Lexer.advance (String.length (ds1 ++ "." ++ ds2)) lx).
Proof. apply Tokens2.nextToken_fraction. Qed.

Lemma X8_decimal_token_witness :
  let lx := Lexer.new ".5+1" in
  (substringFrom (Lexer.position lx) (Lexer.input lx) = EmptyString ++ "." ++ "5" ++ "+1"
   /\ Digits.all_digits EmptyString = true
   /\ Digits.is_digits "5" = true
   /\ Digits.startsWithDigit "+1" = false)
  /\ Lexer.nextToken lx =
     Ok (Tok (newToken TokenType.Decimal ".5" 0 0), Lexer.mk ".5+1" 2 0 2).
Proof.
  split; [repeat split |].
  apply (X8_decimal_token (Lexer.new ".5+1") EmptyString "5" "+1"); reflexivity.
Defined.

(** X9. Whitespace before a token only moves the cursor and the column:
    where the rest of the input is a run of whitespace and then a character
    that is not whitespace, [nextToken] returns what it returns from the lexer
    moved past the run. *)
Theorem X9_leading_whitespace_is_skipped (lx : Lexer.t) (ws rest : string) :
  substringFrom (Lexer.position lx) (Lexer.input lx) = ws ++ rest ->
  Lexemes.all_chars CharUtils.isWhitespace ws = true ->
  rest <> EmptyString ->
  CharUtils.isWhitespace (charAt rest 0) = false ->
  Lexer.nextToken lx = Lexer.nextToken (Lexer.advance (String.length ws) lx).
Proof. apply Tokens2.nextToken_after_whitespace. Qed.

Lemma X9_leading_whitespace_is_skipped_witness :
  let lx := Lexer.new "  x" in
  (substringFrom (Lexer.position lx) (Lexer.input lx) = "  " ++ "x"
   /\ Lexemes.all_chars CharUtils.isWhitespace "  " = true
   /\ "x" <> EmptyString
   /\ CharUtils.isWhitespace (charAt "x" 0) = false)
  /\ Lexer.nextToken lx = Lexer.nextToken (Lexer.mk "  x" 2 0 2).
Proof.
  split; [repeat split; discriminate |].
  apply (X9_leading_whitespace_is_skipped (Lexer.new "  x") "  " "x");
    [reflexivity | reflexivity | discriminate | reflexivity].
Defined.

(** X10. When what is left of the input is whitespace only, and at least
    one character of it, [nextToken] throws the error of an unrecognized
    character: it does not return EndOfInput. *)
Theorem X10_only_whitespace_left_throws (lx : Lexer.t) (ws : string) :
  substringFrom (Lexer.position lx) (Lexer.input lx) = ws ->
  ws <> EmptyString ->
  Lexemes.all_chars CharUtils.isWhitespace ws = true ->
  Lexer.nextToken lx = Throw (Error Lexer.unrecognized).
Proof. apply Tokens2.nextToken_only_whitespace. Qed.

Lemma X10_only_whitespace_left_throws_witness :
  let lx := Lexer.mk "a  " 1 0 1 in
  (substringFrom (Lexer.position lx) (Lexer.input lx) = "  "
   /\ "  " <> EmptyString
   /\ Lexemes.all_chars CharUtils.isWhitespace "  " = true)
  /\ Lexer.nextToken lx = Throw (Error Lexer.unrecognized).
Proof.
  split; [repeat split; discriminate |].
  apply (X10_only_whitespace_left_throws (Lexer.mk "a  " 1 0 1) "  ");
    [reflexivity | discriminate | reflexivity].
Defined.

(** X11. [skipWhitespaces] moves the cursor and the column by the same
    number of characters, all of them whitespace, never past the end of the
    input, and stops on a character that is not whitespace (or at the end);
    running it again changes nothing. *)
Theorem X11_skipWhitespaces_stops_at_a_token (lx : Lexer.t) :
  (exists n,
      Lexer.skipWhitespaces lx = Lexer.advance n lx
      /\ Lexer.position lx + n <= Nat.max (Lexer.position lx) (String.length (Lexer.input lx))
      /\ CharUtils.isWhitespace (charAt (Lexer.input lx) (Lexer.position lx + n)) = false
      /\ (forall i, i < n ->
            CharUtils.isWhitespace (charAt (Lexer.input lx) (Lexer.position lx + i)) = true))
  /\ Lexer.skipWhitespaces (Lexer.skipWhitespaces lx) = Lexer.skipWhitespaces lx.
Proof.
  split; [apply Tokens.skipWhitespaces_advance | apply Scanning.skipWhitespaces_idem].
Qed.

(** X12. [tokenize] never delivers the EndOfInput token: no token of the
    list it returns has that type. *)
Theorem X12_tokenize_leaves_out_EndOfInput
  (fuel : nat) (lx : Lexer.t) (toks : list TokenVal) :
  Lexer.tokenize fuel lx = Ok toks -> Forall Lexemes.notEnd toks.
Proof. apply Rest.tokenize_no_end. Qed.

Lemma X12_tokenize_leaves_out_EndOfInput_witness :
  Lexer.tokenize 5 (Lexer.new "a") = Ok [Tok (newToken TokenType.Identifier "a" 0 0)]
  /\ Forall Lexemes.notEnd [Tok (newToken TokenType.Identifier "a" 0 0)].
Proof.
  split; [reflexivity |].
  apply (X12_tokenize_leaves_out_EndOfInput 5 (Lexer.new "a")). reflexivity.
Defined.

(** X13. No token [nextToken] returns has the empty string as its value
    (the value of EndOfInput and of the Error object is [undefined]): the
    tests [value !== ''] of the parser hold for every token. *)
Theorem X13_token_value_is_never_empty (lx lx' : Lexer.t) (tv : TokenVal) :
  Lexer.nextToken lx = Ok (tv, lx') ->
  Lexemes.valueOf tv <> Some EmptyString.
Proof. apply Rest.nextToken_value. Qed.

Lemma X13_token_value_is_never_empty_witness :
  Lexer.nextToken (Lexer.new "(") = Ok (Tok (newToken "(" "(" 0 0), Lexer.mk "(" 1 0 1)
  /\ Lexemes.valueOf (Tok (newToken "(" "(" 0 0)) <> Some EmptyString.
Proof.
  split; [reflexivity |].
  apply (X13_token_value_is_never_empty (Lexer.new "(") (Lexer.mk "(" 1 0 1)). reflexivity.
Defined.

(* ================================================================== *)
(** ** Further properties of the parser                                 *)
(* ================================================================== *)

(** X14. The argument check of a function assignment: [symbolArgs] finds
    the arguments valid, with the names [names], exactly when the arguments
    are the SymbolNodes of those names, in order. *)
Theorem X14_symbolArgs_valid_iff_all_symbols
  (args : list Value) (names : list (option string)) :
  Parser.symbolArgs args = Ok (true, names) <->
  args = map (fun name => node (SymbolNode name)) names.
Proof. apply Inputs.symbolArgs_valid. Qed.

(** X15. For every digit sequence, parsing it yields the ConstantNode
    whose value is the sequence and whose type is [integer], on any fuel from
    12 on. *)
Theorem X15_parse_integer_literal (ds : string) (fuel : nat) :
  Digits.is_digits ds = true -> 12 <= fuel ->
  Parser.parseInput fuel ds = Ok (node (ConstantNode (Some ds) (Some "integer"))).
Proof. apply Inputs.parseInput_integer. Qed.

Lemma X15_parse_integer_literal_witness :
  (Digits.is_digits "42" = true /\ 12 <= 12)
  /\ Parser.parseInput 12 "42" = Ok (node (ConstantNode (Some "42") (Some "integer"))).
Proof.
  split; [split; [reflexivity | lia] |].
  apply (X15_parse_integer_literal "42" 12); [reflexivity | lia].
Defined.

(** X16. For every text made of digits (possibly none), a dot and one
    digit or more, parsing it yields the ConstantNode of that text with the
    type [decimal], on any fuel from 12 on. *)
Theorem X16_parse_decimal_literal (ds1 ds2 : string) (fuel : nat) :
  Digits.all_digits ds1 = true -> Digits.is_digits ds2 = true -> 12 <= fuel ->
  Parser.parseInput fuel (ds1 ++ "." ++ ds2) =
  Ok (node (ConstantNode (Some (ds1 ++ "." ++ ds2)) (Some "decimal"))).
Proof. apply Inputs.parseInput_decimal. Qed.

Lemma X16_parse_decimal_literal_witness :
  (Digits.all_digits "3" = true /\ Digits.is_digits "14159" = true /\ 12 <= 12)
  /\ Parser.parseInput 12 "3.14159" =
     Ok (node (ConstantNode (Some "3.14159") (Some "decimal"))).
Proof.
  split; [repeat split; lia |].
  apply (X16_parse_decimal_literal "3" "14159" 12); [reflexivity | reflexivity | lia].
Defined.

(** X17. For every body without double quotes, parsing the body between
    two double quotes yields the ConstantNode whose value is the text with its
    quotes and whose type is [string], on any fuel from 9 on. *)
Theorem X17_parse_string_literal (body : string) (fuel : nat) :
  Lexemes.all_chars Lexemes.notQuote body = true -> 9 <= fuel ->
  Parser.parseInput fuel (Lexemes.quote ++ body ++ Lexemes.quote) =
  Ok (node (ConstantNode (Some (Lexemes.quote ++ body ++ Lexemes.quote)) (Some "string"))).
Proof. apply Inputs.parseInput_string. Qed.

Lemma X17_parse_string_literal_witness :
  (Lexemes.all_chars Lexemes.notQuote "Hello, World!" = true /\ 9 <= 9)
  /\ Parser.parseInput 9 (Lexemes.quote ++ "Hello, World!" ++ Lexemes.quote) =
     Ok (node (ConstantNode (Some (Lexemes.quote ++ "Hello, World!" ++ Lexemes.quote))
                            (Some "string"))).
Proof.
  split; [split; [reflexivity | lia] |].
  apply (X17_parse_string_literal "Hello, World!" 9); [reflexivity | lia].
Defined.

(** X18. For every identifier that is not a keyword, parsing it alone
    yields the SymbolNode of that name, on any fuel from 9 on. *)
Theorem X18_parse_identifier (c : ascii) (w : string) (fuel : nat) :
  CharUtils.isLetterOrUnderscore (String c EmptyString) = true ->
  Lexemes.all_chars Lexer.isIdentifierPart w = true ->
  includes Lexer.keywords (String c w) = false ->
  9 <= fuel ->
  Parser.parseInput fuel (String c w) = Ok (node (SymbolNode (Some (String c w)))).
Proof. apply Inputs.parseInput_identifier. Qed.

Lemma X18_parse_identifier_witness :
  (CharUtils.isLetterOrUnderscore "c" = true
   /\ Lexemes.all_chars Lexer.isIdentifierPart "ar" = true
   /\ includes Lexer.keywords "car" = false
   /\ 9 <= 9)
  /\ Parser.parseInput 9 "car" = Ok (node (SymbolNode (Some "car"))).
Proof.
  split; [repeat split; lia |].
  apply (X18_parse_identifier "c"%char "ar" 9); [reflexivity | reflexivity | reflexivity | lia].
Defined.

(** X19. For every identifier that is not a keyword, followed by a dot and
    by anything but a digit, [parse()] never returns and never throws: the
    outcome is [OutOfFuel] on every fuel. *)
Theorem X19_identifier_then_dot_never_returns
  (c : ascii) (w rest : string) (fuel : nat) :
  CharUtils.isLetterOrUnderscore (String c EmptyString) = true ->
  Lexemes.all_chars Lexer.isIdentifierPart w = true ->
  includes Lexer.keywords (String c w) = false ->
  Digits.startsWithDigit rest = false ->
  Parser.parseInput fuel (String c w ++ "." ++ rest) = OutOfFuel.
Proof. apply Inputs.parseInput_identifier_dot. Qed.

Lemma X19_identifier_then_dot_never_returns_witness :
  (CharUtils.isLetterOrUnderscore "c" = true
   /\ Lexemes.all_chars Lexer.isIdentifierPart "ar" = true
   /\ includes Lexer.keywords "car" = false
   /\ Digits.startsWithDigit "drive(2)" = false)
  /\ Parser.parseInput 1000 "car.drive(2)" = OutOfFuel.
Proof.
  split; [repeat split |].
  apply (X19_identifier_then_dot_never_returns "c"%char "ar" "drive(2)" 1000); reflexivity.
Defined.

(** X20. [discardNewlines] ends within [input.length + 2] turns of its
    loop, counted from the cursor: it returns with a current token whose type
    is not the newline, or the lexer has thrown the error of an unrecognized
    character. *)
Theorem X20_discardNewlines_ends (fuel : nat) (s : Parser.t) :
  Parser.currentToken s <> UndefinedToken ->
  String.length (Lexer.input (Parser.lexer s)) - Lexer.position (Parser.lexer s) + 2 <= fuel ->
  (exists s' ty, ParserRest.discardNewlines fuel s = Ok (tt, s')
                 /\ Parser.tokType s' = Ok (ty, s')
                 /\ seq ty Parser.newline = false)
  \/ ParserRest.discardNewlines fuel s = Throw (Error Lexer.unrecognized).
Proof.
  intros Hdef Hfuel.
  apply (Rest.discardNewlines_ends
           (String.length (Lexer.input (Parser.lexer s)) - Lexer.position (Parser.lexer s)));
    [exact Hdef | lia | lia].
Qed.

Lemma X20_discardNewlines_ends_witness :
  let s := Parser.mk (Lexer.mk (Parser.newline ++ "a") 1 1 0)
                     (Tok (newToken TokenType.Newline Parser.newline 0 0)) in
  (Parser.currentToken s <> UndefinedToken
   /\ String.length (Lexer.input (Parser.lexer s)) - Lexer.position (Parser.lexer s) + 2 <= 3)
  /\ ((exists s' ty, ParserRest.discardNewlines 3 s = Ok (tt, s')
                     /\ Parser.tokType s' = Ok (ty, s')
                     /\ seq ty Parser.newline = false)
      \/ ParserRest.discardNewlines 3 s = Throw (Error Lexer.unrecognized)).
Proof.
  split; [split; [discriminate | simpl; lia] |].
  apply (X20_discardNewlines_ends 3
           (Parser.mk (Lexer.mk (Parser.newline ++ "a") 1 1 0)
                      (Tok (newToken TokenType.Newline Parser.newline 0 0))));
    [discriminate | simpl; lia].
Defined.

(** X21. When the current token begins no primary expression (its type
    is none of null, true, false, identifier, string, the opening bracket, the
    opening brace, decimal and integer, and its value is not the opening
    parenthesis), [parseSymbolOrConstant] returns [undefined]: it raises
    nothing and consumes nothing, on any fuel from 6 on. *)
Theorem X21_no_operand_is_undefined (fuel : nat) (s : Parser.t) (tk : Token) :
  6 <= fuel ->
  Parser.currentToken s = Tok tk ->
  includes_opt ["null"; "true"; "false"; "identifier"; "string"; "["; "{"; "decimal"; "integer"]
               (type tk) = false ->
  seq (value tk) "(" = false ->
  Parser.parseSymbolOrConstant (Parser.methods fuel) s = Ok (undefined, s).
Proof. apply NoOperand.parseSymbolOrConstant_nothing_fuel. Qed.

Lemma X21_no_operand_is_undefined_witness :
  let tk := newToken TokenType.Plus "+" 0 1 in
  let s := Parser.mk (Lexer.mk "1+" 2 0 2) (Tok tk) in
  (6 <= 6
   /\ Parser.currentToken s = Tok tk
   /\ includes_opt ["null"; "true"; "false"; "identifier"; "string"; "["; "{"; "decimal";
                    "integer"] (type tk) = false
   /\ seq (value tk) "(" = false)
  /\ Parser.parseSymbolOrConstant (Parser.methods 6) s = Ok (undefined, s).
Proof.
  split; [repeat split; lia |].
  apply (X21_no_operand_is_undefined 6
           (Parser.mk (Lexer.mk "1+" 2 0 2) (Tok (newToken TokenType.Plus "+" 0 1)))
           (newToken TokenType.Plus "+" 0 1)); [lia | reflexivity | reflexivity | reflexivity].
Defined.
